(* ===== verification/_CoqProject ===== *)
-Q . S2P
Prelude.v
BaseEvent.v
EventProperties.v
Condition.v
AcknowledgeableCondition.v
ExclusiveLimitStateMachine.v
System.v
Lifecycle.v
Refinement.v
