(* ===== verification/Prelude.v ===== *)
(** * A verification development of QUaServer's event, condition and alarm wrappers

    ** The program

    The sources are three C++ headers of the QUaServer wrapper around the
    open62541 OPC UA stack:
    - [src/src/wrapper/quabaseevent.h]: [QUaBaseEvent], the BaseEventType
      of Part 5 6.4.  Eight mandatory properties (EventId, EventType,
      SourceNode, SourceName, Time, ReceiveTime, Message, Severity as a
      quint16), get/set accessors, the private members
      [m_nodeIdOriginator] and [m_outEventId] ("EventId of last triggered
      event"), and [trigger()], which "updates eventId, sourceNode,
      eventType and receiveTime".
    - [src/src/wrapper/quaacknowledgeablecondition.h]:
      [QUaAcknowledgeableCondition], a [QUaCondition] with the client
      methods [Acknowledge(EventId, Comment)] and [Confirm(EventId,
      Comment)] and the [confirmAllowed] flag.
    - [src/src/wrapper/quaexclusivelimitstatemachine.h]:
      [QUaExclusiveLimitStateMachine], a [QUaFiniteStateMachine] for the
      Part 9 5.8.12.2 ExclusiveLimitStateMachineType.

    How they interact: an application sets an event's properties and
    calls [trigger]; the server runtime stamps id, type, source and
    receive time and hands the record to its dispatch facility.  A client
    acknowledges or confirms a condition by quoting the id of its last
    notification; each successful call triggers the condition again.  A
    limit alarm moves its exclusive limit state machine between bands.

    The headers hold declarations and doc comments only; the bodies are in
    .cpp files that are not among the sources.  Every definition follows
    the header where it says something (names, parameters and their
    types, the fields [trigger] updates, [m_outEventId], the severity
    width) and follows spec.md for what the header leaves to the body;
    the manifest marks the latter [spec_modelled].  The runtime the spec
    names as an external collaborator (node store, type registry, UTC
    clock, event-id generator, dispatch sink) is an explicit state record
    passed through every operation.

    ** Files, modules and their correspondence to the code

    - [Prelude] (this file): the status type [StatusError] (the errors of
      spec section 7 and two runtime statuses for unknown and duplicate
      node ids), the error monad [res] with [x <- m ;; k] in [ua_scope],
      the quint16 conversion [quint16_of_Z], the 16-byte big-endian
      event-id encoding [eventId_bytes] of the runtime's id generator with
      its decoder, [UaNodeId] with its [EqDecision] and [Countable]
      instances (keys of the node store), the [ua] hint databases, the
      [ua_cases] tactic and the shared list lemmas.
    - [BaseEvent], [Module BaseEvent]: the record [QUaBaseEvent] (one field
      per property of the header's table, the event's own node, its C++
      class, and the two private members); the runtime record [QUaServer]
      with [advanceClock], [addNode], [deleteNode], [registerType] and the
      generator [eventId_of]; the constructor [QUaBaseEvent_new], the
      getters and setters of the header; [trigger], built from
      [resolveSourceNode], [triggered] (the stamped record) and [dispatch]
      (the hand-off to the runtime).  [server_wf] is the runtime invariant
      and [trigger_contract] the contract of spec section 4.1.
    - [Condition], [Module Condition]: [QUaCondition] (retain flag, enable
      state; spec section 3, not in the sources) and the class [HasEvent],
      the interface through which a derived class reaches its base event
      (a lens with three laws); [triggerT] is [trigger] called on a derived
      object, and its lemmas are proved once against the class.
    - [EventProperties], [Module EventProperties]: the event's properties
      as the child [QUaProperty] nodes the private getters [getEventId]
      ... [getSeverity] return, modelled as one lookup [getProperty] by
      browse name yielding a typed value [UaVariant]; the DataType table
      [BaseEventTypeProperties] of the header and the four attributes
      the server sets itself ([serverSetProperties], the open62541
      comment of the header).  The file holds definitions only.
    - [AcknowledgeableCondition], [Module AckCond]: the record
      [QUaAcknowledgeableCondition] (AckedState and ConfirmedState as the
      two Part 9 two-state variables, Comment, confirmAllowed), the
      constructor, [confirmAllowed]/[setConfirmAllowed], [eventId_matches]
      (the quoted id must be [m_outEventId]), [Acknowledge] and [Confirm]
      with their guards in the order of spec sections 3, 4.2, 7 and 8 (the
      id first, then for Confirm the confirmAllowed guard, which rejects
      the call "regardless of state", then the phase); the spec's
      three-phase machine as the inductive [ack_step] and the abstraction
      [phase], with [flags_of_phase] the flags each phase stands for;
      [ac_setRetain] is the base class's [setRetain] on this class.
    - [ExclusiveLimitStateMachine], [Module ExclusiveLimit]: the four bands
      and the four named transitions of spec section 4.3 (the header's
      Part 9 comment is empty), [CurrentState] and [LastTransition], and
      the owner-driven [setState].
    - [System], [Module System]: the server's address space as a [gmap]
      from node ids to stored objects ([World]), the operations ([Op]) of
      clients, the application, the alarm logic and the runtime, [exec]
      for one operation (a failed one returns its status and changes
      nothing) and [run] for a sequence, processed one at a time as the
      single-threaded server of spec section 5 does.  [method_op] is the
      operation a client sends for a method of [AckMethod];
      [cond_identity] is what a condition keeps across its notifications.
    - [Lifecycle], [Module Lifecycle]: one stored instance followed
      through [exec]: [obj_event] (the event part of a stored object),
      the stamp invariant [stamp_wf] (a triggered instance's receive time
      is not ahead of the clock) and [notifies] (the operations that
      notify when they succeed).
    - [Refinement], [Module Refinement]: the invariant [attached] (every
      stored object sits at a node of the server), the abstract state
      [abs_state] (confirm guard and phase) of a condition, the guarded
      acknowledgement machine [cond_step] of spec sections 3 and 4.2
      (method steps of [ack_step], guard changes), the projection
      [label_project] of server operations to its labels, and the
      one-step refinement theorem.

    ** What the theorems show

    - The trigger protocol (BaseEvent, C1-C2): [trigger] refines the
      spec's contract and keeps the runtime invariant; the severity setter
      and [trigger] never range-check (a divergence from the spec).
    - Acknowledgement (AckCond, C3-C6): Acknowledge and Confirm succeed
      exactly when the abstract machine, under the confirm guard, has the
      transition and land in its target phase; they keep "Confirmed
      implies Acknowledged" and emit one follow-up notification; a quoted
      id becomes stale after use; every error branch of spec sections 3,
      4.2 and 8.
    - The limit machine (ExclusiveLimit, C7): [setState] makes its target
      the only current state, records the transition and is idempotent.
    - The server (System, C8-C13, C16): every run preserves the world
      invariant; over any run, dispatched ids stay distinct, the log only
      grows and receive times do not decrease; liveness of the workflow (a
      triggered, attached, unacknowledged condition is brought to
      Confirmed by Acknowledge then Confirm with the ids the server
      issued, both succeeding); deleting an event's originator makes its
      next notification carry a null SourceNode; a condition keeps its
      retain flag, enable state, confirm guard and identity across its
      notifications; a condition re-created at a reused node accepts none
      of the old ids.
    - The instance lifecycle (Lifecycle, C14-C15): re-triggering an
      instance of a reachable world gives a receive time not earlier than
      before and a fresh id (spec section 8); the log grows by exactly one
      notification per successful trigger or method call.
    - Refinement (Refinement, C17): for every reachable world and every
      operation that does not delete the node, a stored condition's
      abstract state moves by a [cond_step] carrying the operation's
      projected label when the operation is a successful Acknowledge,
      Confirm or SetConfirmAllowed on it, and does not move otherwise.

    ** Bounds and why they suffice

    Event ids are the 16-byte big-endian encoding of the runtime's
    trigger counter (open62541 also uses 16-byte ids); the encoding is
    injective below 2^128 ([eventId_bytes_inj]), which every uniqueness
    theorem takes as its hypothesis: past 2^128 triggers the encoding
    wraps and ids repeat.  Severity is a quint16 in the header, and the
    setter takes a quint16, so its argument is reduced modulo 2^16.
    Times are unbounded integers rather than the 64-bit UtcTime: the clock
    only moves forward by natural-number ticks, and no theorem depends on
    a time bound.  No definition uses fuel: [run] recurses on the list of
    operations.

    ** Not modelled

    [QUaProperty] itself (a node class outside the sources: its value is
    modelled, not its attributes or references); the optional LocalTime
    property (its getter finds no child); the UA_ENABLE_SUBSCRIPTIONS_*
    build flags; encoding, transport, sessions and subscriptions (the
    sink is the sequence of notifications handed to the runtime, not
    their delivery).  The header of [QUaExclusiveLimitStateMachine]
    declares only its constructor and leaves the Part 9 comment empty,
    and [QUaCondition] is not among the sources: the enable-state guards
    of Part 9, condition branches and the owning limit alarm's choice of
    band are not in the code or the spec, so they are not modelled.
    Node ids have the null, numeric and string kinds only: GUID and opaque
    ids behave as further keys of the same store, and no definition
    inspects a key's kind.  The address space is flat: an instance's
    property children are fields of its record, so [OpDelete] removing
    the node and its stored object is the teardown of that instance's
    subtree; a hierarchy of independent nodes (folders, references) is
    not in the sources.

    ** Coverage and what is left

    The map covers the declarations of all three headers; the remaining
    lines are include guards, the empty "Part X" comment and the access
    specifiers, which have no behaviour.  The components marked partly
    modelled in the manifest are those the headers only use (open62541's
    runtime and address space, [QUaCondition]): they are modelled as far
    as spec sections 3 and 6 describe them, and nothing further can be
    modelled faithfully from the sources. *)

From stdpp Require Export base gmap strings list.
From Stdlib Require Export ZArith Lia.
From Stdlib Require Strings.Byte.

Declare Scope ua_scope.
Delimit Scope ua_scope with ua.
Open Scope Z_scope.

(** ** Client-visible errors (spec section 7) *)

Inductive StatusError :=
| NotAttached
| InvalidSeverity
| InvalidEventId
| AlreadyAcknowledged
| AlreadyConfirmed
| NotAcknowledged
| ConfirmNotAllowed
| BadNodeIdUnknown
| BadNodeIdExists.

#[export] Instance StatusError_eq_dec : EqDecision StatusError.
Proof. solve_decision. Defined.

(** ** The error monad *)

Inductive res (A : Type) : Type :=
| Ok (a : A)
| Err (e : StatusError).
Arguments Ok {A} a.
Arguments Err {A} e.

Definition res_bind {A B} (m : res A) (k : A -> res B) : res B :=
  match m with
  | Ok a => k a
  | Err e => Err e
  end.

Notation "x <- m ;; k" := (res_bind m (fun x => k))
  (at level 60, m at next level, right associativity) : ua_scope.

Lemma res_bind_Ok_inv {A B} (m : res A) (k : A -> res B) (b : B) :
  res_bind m k = Ok b -> exists a, m = Ok a /\ k a = Ok b.
Proof. destruct m; simpl; [eauto | discriminate]. Qed.

(** ** quint16 *)

(** Conversion of an integer to the header's [quint16] (C++ integral
    conversion: reduction modulo 2^16). *)
Definition quint16_of_Z (z : Z) : Z := z mod 2 ^ 16.

Lemma quint16_of_Z_range z : 0 <= quint16_of_Z z < 2 ^ 16.
Proof. unfold quint16_of_Z. apply Z.mod_pos_bound. lia. Qed.

(** ** Bytes and the 16-byte event-id encoding *)

#[export] Instance byte_eq_dec : EqDecision Byte.byte := Byte.byte_eq_dec.

Definition byte_of_Z (z : Z) : Byte.byte :=
  match Byte.of_N (Z.to_N (z mod 256)) with
  | Some b => b
  | None => Byte.x00
  end.

Definition Z_of_byte (b : Byte.byte) : Z := Z.of_N (Byte.to_N b).

Lemma Z_of_byte_of_Z z : Z_of_byte (byte_of_Z z) = z mod 256.
Proof.
  unfold byte_of_Z, Z_of_byte.
  pose proof (Z.mod_pos_bound z 256 ltac:(lia)) as Hb.
  destruct (Byte.of_N _) eqn:E.
  - apply Byte.to_of_N in E. rewrite E. apply Z2N.id. lia.
  - apply Byte.of_N_None_iff in E. lia.
Qed.

Lemma Z_of_byte_range b : 0 <= Z_of_byte b < 256.
Proof. unfold Z_of_byte. pose proof (Byte.to_N_bounded b). lia. Qed.

(** Big-endian: the most significant byte first. *)
Fixpoint bytes_of_Z (k : nat) (z : Z) : list Byte.byte :=
  match k with
  | O => []
  | S k' => bytes_of_Z k' (Z.shiftr z 8) ++ [byte_of_Z z]
  end.

Definition Z_of_bytes (l : list Byte.byte) : Z :=
  fold_left (fun acc b => acc * 256 + Z_of_byte b) l 0.

Lemma length_bytes_of_Z k z : length (bytes_of_Z k z) = k.
Proof. revert z; induction k; intros z; simpl; [done|]. rewrite length_app, IHk. simpl. lia. Qed.

Lemma Z_of_bytes_snoc l b : Z_of_bytes (l ++ [b]) = Z_of_bytes l * 256 + Z_of_byte b.
Proof. unfold Z_of_bytes. by rewrite fold_left_app. Qed.

Lemma Z_of_bytes_of_Z k z : Z_of_bytes (bytes_of_Z k z) = z mod 2 ^ (8 * Z.of_nat k).
Proof.
  revert z; induction k as [|k IH]; intros z; simpl.
  - rewrite Z.mod_1_r. reflexivity.
  - rewrite Z_of_bytes_snoc, IH, Z_of_byte_of_Z, Z.shiftr_div_pow2 by lia.
    replace (8 * Z.of_nat (S k)) with (8 + 8 * Z.of_nat k) by lia.
    rewrite Z.pow_add_r, Z.rem_mul_r by lia. change (2 ^ 8) with 256. lia.
Qed.

(** Width of an OPC UA event id produced by the runtime, in bytes. *)
Definition EVENTID_LENGTH : nat := 16.

Definition eventId_bytes (n : Z) : list Byte.byte := bytes_of_Z EVENTID_LENGTH n.

Definition EVENTID_CAPACITY : Z := 2 ^ (8 * Z.of_nat EVENTID_LENGTH).

Lemma Z_of_eventId_bytes n :
  0 <= n < EVENTID_CAPACITY -> Z_of_bytes (eventId_bytes n) = n.
Proof. intros H. unfold eventId_bytes. rewrite Z_of_bytes_of_Z. apply Z.mod_small. exact H. Qed.

Lemma eventId_bytes_inj n m :
  0 <= n < EVENTID_CAPACITY -> 0 <= m < EVENTID_CAPACITY ->
  eventId_bytes n = eventId_bytes m -> n = m.
Proof.
  intros Hn Hm E. rewrite <- (Z_of_eventId_bytes n Hn), <- (Z_of_eventId_bytes m Hm). by rewrite E.
Qed.

Lemma length_eventId_bytes n : length (eventId_bytes n) = EVENTID_LENGTH.
Proof. apply length_bytes_of_Z. Qed.

(** ** Node ids *)

Inductive UaNodeId :=
| UA_NODEID_NULL
| UA_NODEID_NUMERIC (ns : Z) (id : Z)
| UA_NODEID_STRING (ns : Z) (id : string).

#[export] Instance UaNodeId_eq_dec : EqDecision UaNodeId.
Proof. solve_decision. Defined.

Definition UaNodeId_encode (n : UaNodeId) : option (Z * (Z + string)) :=
  match n with
  | UA_NODEID_NULL => None
  | UA_NODEID_NUMERIC ns i => Some (ns, inl i)
  | UA_NODEID_STRING ns s => Some (ns, inr s)
  end.

Definition UaNodeId_decode (o : option (Z * (Z + string))) : UaNodeId :=
  match o with
  | None => UA_NODEID_NULL
  | Some (ns, inl i) => UA_NODEID_NUMERIC ns i
  | Some (ns, inr s) => UA_NODEID_STRING ns s
  end.

#[export] Instance UaNodeId_countable : Countable UaNodeId.
Proof. apply (inj_countable' UaNodeId_encode UaNodeId_decode). by intros []. Defined.

(** UTC timestamps (UA_DateTime: a signed count of 100 ns ticks). *)
Definition UtcTime := Z.

(** ** Automation *)

Create HintDb ua discriminated.
Create Rewrite HintDb ua_rw.
#[export] Hint Resolve quint16_of_Z_range Z_of_byte_range length_eventId_bytes : ua.
#[export] Hint Rewrite Z_of_byte_of_Z length_bytes_of_Z Z_of_bytes_snoc : ua_rw.

(** Case analysis on the [if]/[match] guards of an operation, keeping the
    guard's equation, then stdpp's simplification of the equalities. *)
Ltac ua_cases :=
  repeat match goal with
  | |- context [if ?b then _ else _] => let E := fresh "E" in destruct b eqn:E
  | H : context [if ?b then _ else _] |- _ => let E := fresh "E" in destruct b eqn:E
  end; simplify_eq; simpl in *.

(** ** Shared list facts *)

(** A list of integers is non-decreasing from left to right. *)
Fixpoint nondecreasing (l : list Z) : Prop :=
  match l with
  | [] => True
  | x :: l' => Forall (fun y => x <= y) l' /\ nondecreasing l'
  end.

Lemma nondecreasing_snoc l x :
  nondecreasing l -> Forall (fun y => y <= x) l -> nondecreasing (l ++ [x]).
Proof.
  induction l as [|y l IH]; simpl; intros Hl Hx; [done|].
  destruct Hl as [Hy Hl]. apply Forall_cons in Hx as [Hyx Hx].
  split; [apply Forall_app; auto|]. auto.
Qed.

Lemma NoDup_snoc {A} (l : list A) (x : A) : x ∉ l -> NoDup l -> NoDup (l ++ [x]).
Proof.
  intros Hx Hl. apply NoDup_app. split; [done|]. split; [|apply NoDup_singleton].
  intros y Hy Hy'. apply list_elem_of_singleton in Hy'. subst. done.
Qed.

#[export] Hint Resolve nondecreasing_snoc NoDup_snoc : ua.
