(* ===== verification/BaseEvent.v ===== *)
(** * QUaBaseEvent and the trigger protocol

    Models [src/src/wrapper/quabaseevent.h]: the record of the eight
    mandatory BaseEventType properties and the two private members, the
    setters, and [trigger()]; together with the part of the open62541
    runtime that [trigger] consumes (spec section 6): the node set, the
    registry of event types, the UTC clock, the event-id generator and the
    sink of dispatched notifications.  Theorems: the shape of a
    successful [trigger] and of its dispatched record, the server
    invariant it preserves, the freshness and injectivity of the ids the
    generator issues, the refinement of the spec's trigger contract, and
    the absence of a severity range check in the setter and in
    [trigger]. *)

From S2P Require Import Prelude.

Module BaseEvent.

(** ** Data *)

(** The mandatory instance declarations of BaseEventType (the table of
    the header; LocalTime is Optional and is left out). *)
Definition mandatoryChildrenBrowseNames : list string :=
  ["EventId"; "EventType"; "SourceNode"; "SourceName"; "Time";
   "ReceiveTime"; "Message"; "Severity"]%string.

(** A [QUaBaseEvent] object: its own node (inherited from [QUaNode]), the
    C++ class it is an instance of (which selects the EventType), one field
    per mandatory property, and the private members. *)
Record QUaBaseEvent := mkQUaBaseEvent {
  nodeId : UaNodeId;
  typeName : string;
  EventId : list Byte.byte;
  EventType : UaNodeId;
  SourceNode : UaNodeId;
  SourceName : string;
  Time : UtcTime;
  ReceiveTime : UtcTime;
  Message : string;
  Severity : Z;
  m_nodeIdOriginator : UaNodeId;
  m_outEventId : list Byte.byte
}.

(** A notification handed to the runtime: the values of the mandatory
    properties at trigger time. *)
Record EventNotification := mkEventNotification {
  en_EventId : list Byte.byte;
  en_EventType : UaNodeId;
  en_SourceNode : UaNodeId;
  en_SourceName : string;
  en_Time : UtcTime;
  en_ReceiveTime : UtcTime;
  en_Message : string;
  en_Severity : Z
}.

Definition notification_of (e : QUaBaseEvent) : EventNotification :=
  {| en_EventId := EventId e; en_EventType := EventType e;
     en_SourceNode := SourceNode e; en_SourceName := SourceName e;
     en_Time := Time e; en_ReceiveTime := ReceiveTime e;
     en_Message := Message e; en_Severity := Severity e |}.

(** The server runtime (open62541) as far as events use it. *)
Record QUaServer := mkQUaServer {
  srv_nodes : gset UaNodeId;
  srv_types : gmap string UaNodeId;
  srv_clock : UtcTime;
  srv_eventCount : nat;
  srv_dispatched : list EventNotification
}.

Definition QUaServer_init (now : UtcTime) : QUaServer :=
  {| srv_nodes := ∅; srv_types := ∅; srv_clock := now;
     srv_eventCount := 0; srv_dispatched := [] |}.

(** ** The runtime's operations *)

(** The id generator: the [n]-th id of the server's run. *)
Definition eventId_of (n : nat) : list Byte.byte := eventId_bytes (Z.of_nat n).
Arguments eventId_of : simpl never.

(** The clock moves forward by [d] ticks. *)
Definition advanceClock (srv : QUaServer) (d : N) : QUaServer :=
  {| srv_nodes := srv_nodes srv; srv_types := srv_types srv;
     srv_clock := srv_clock srv + Z.of_N d;
     srv_eventCount := srv_eventCount srv; srv_dispatched := srv_dispatched srv |}.

Definition addNode (srv : QUaServer) (n : UaNodeId) : QUaServer :=
  {| srv_nodes := {[n]} ∪ srv_nodes srv; srv_types := srv_types srv;
     srv_clock := srv_clock srv;
     srv_eventCount := srv_eventCount srv; srv_dispatched := srv_dispatched srv |}.

Definition deleteNode (srv : QUaServer) (n : UaNodeId) : QUaServer :=
  {| srv_nodes := srv_nodes srv ∖ {[n]}; srv_types := srv_types srv;
     srv_clock := srv_clock srv;
     srv_eventCount := srv_eventCount srv; srv_dispatched := srv_dispatched srv |}.

Definition registerType (srv : QUaServer) (name : string) (tid : UaNodeId) : QUaServer :=
  {| srv_nodes := srv_nodes srv; srv_types := <[name := tid]> (srv_types srv);
     srv_clock := srv_clock srv;
     srv_eventCount := srv_eventCount srv; srv_dispatched := srv_dispatched srv |}.

(** ** Constructor and accessors *)

(** [QUaBaseEvent(server, mandatoryChildren)]: a new event object of class
    [tname] with node [n], triggered on behalf of [originator]; the
    properties hold their type's default (empty, zero). *)
Definition QUaBaseEvent_new (n : UaNodeId) (tname : string) (originator : UaNodeId)
  : QUaBaseEvent :=
  {| nodeId := n; typeName := tname; EventId := []; EventType := UA_NODEID_NULL;
     SourceNode := UA_NODEID_NULL; SourceName := ""; Time := 0; ReceiveTime := 0;
     Message := ""; Severity := 0; m_nodeIdOriginator := originator;
     m_outEventId := [] |}.

Definition eventId (e : QUaBaseEvent) : list Byte.byte := EventId e.
Definition eventType (e : QUaBaseEvent) : UaNodeId := EventType e.
Definition sourceNode (e : QUaBaseEvent) : UaNodeId := SourceNode e.
Definition receiveTime (e : QUaBaseEvent) : UtcTime := ReceiveTime e.
Definition severity (e : QUaBaseEvent) : Z := Severity e.
Definition sourceName (e : QUaBaseEvent) : string := SourceName e.
Definition time (e : QUaBaseEvent) : UtcTime := Time e.
Definition message (e : QUaBaseEvent) : string := Message e.

Definition setSourceName (e : QUaBaseEvent) (strSourceName : string) : QUaBaseEvent :=
  {| nodeId := nodeId e; typeName := typeName e; EventId := EventId e;
     EventType := EventType e; SourceNode := SourceNode e;
     SourceName := strSourceName; Time := Time e; ReceiveTime := ReceiveTime e;
     Message := Message e; Severity := Severity e;
     m_nodeIdOriginator := m_nodeIdOriginator e; m_outEventId := m_outEventId e |}.

Definition setTime (e : QUaBaseEvent) (dateTime : UtcTime) : QUaBaseEvent :=
  {| nodeId := nodeId e; typeName := typeName e; EventId := EventId e;
     EventType := EventType e; SourceNode := SourceNode e;
     SourceName := SourceName e; Time := dateTime; ReceiveTime := ReceiveTime e;
     Message := Message e; Severity := Severity e;
     m_nodeIdOriginator := m_nodeIdOriginator e; m_outEventId := m_outEventId e |}.

Definition setMessage (e : QUaBaseEvent) (strMessage : string) : QUaBaseEvent :=
  {| nodeId := nodeId e; typeName := typeName e; EventId := EventId e;
     EventType := EventType e; SourceNode := SourceNode e;
     SourceName := SourceName e; Time := Time e; ReceiveTime := ReceiveTime e;
     Message := strMessage; Severity := Severity e;
     m_nodeIdOriginator := m_nodeIdOriginator e; m_outEventId := m_outEventId e |}.

(** [setSeverity(const quint16 &)]: the argument is a quint16, so an
    integer passed by the caller arrives reduced modulo 2^16; the setter
    returns [void] and stores the value. *)
Definition setSeverity (e : QUaBaseEvent) (intSeverity : Z) : QUaBaseEvent :=
  {| nodeId := nodeId e; typeName := typeName e; EventId := EventId e;
     EventType := EventType e; SourceNode := SourceNode e;
     SourceName := SourceName e; Time := Time e; ReceiveTime := ReceiveTime e;
     Message := Message e; Severity := quint16_of_Z intSeverity;
     m_nodeIdOriginator := m_nodeIdOriginator e; m_outEventId := m_outEventId e |}.

(** ** trigger *)

(** The node the event originates from, or null when the originator is
    not a node of the server. *)
Definition resolveSourceNode (srv : QUaServer) (e : QUaBaseEvent) : UaNodeId :=
  if decide (m_nodeIdOriginator e ∈ srv_nodes srv) then m_nodeIdOriginator e
  else UA_NODEID_NULL.

(** The record after [trigger] stamped it: fresh id, type, source node and
    receive time; the id is also kept in [m_outEventId]. *)
Definition triggered (srv : QUaServer) (e : QUaBaseEvent) (tid : UaNodeId) : QUaBaseEvent :=
  let eid := eventId_of (srv_eventCount srv) in
  {| nodeId := nodeId e; typeName := typeName e; EventId := eid;
     EventType := tid; SourceNode := resolveSourceNode srv e;
     SourceName := SourceName e; Time := Time e;
     ReceiveTime := srv_clock srv; Message := Message e;
     Severity := Severity e;
     m_nodeIdOriginator := m_nodeIdOriginator e;
     m_outEventId := eid |}.

(** The runtime takes the populated record: the generator advances and
    the notification is appended to the sink (fire and forget). *)
Definition dispatch (srv : QUaServer) (e : QUaBaseEvent) : QUaServer :=
  {| srv_nodes := srv_nodes srv; srv_types := srv_types srv;
     srv_clock := srv_clock srv;
     srv_eventCount := S (srv_eventCount srv);
     srv_dispatched := srv_dispatched srv ++ [notification_of e] |}.

(** [trigger()]: updates eventId, sourceNode, eventType and receiveTime,
    records the id in [m_outEventId] and hands the notification to the
    runtime.  An event whose node is not in the server, or whose class is
    not a registered type, is not attached. *)
Definition trigger (srv : QUaServer) (e : QUaBaseEvent) : res (QUaServer * QUaBaseEvent) :=
  if decide (nodeId e ∈ srv_nodes srv) then
    match srv_types srv !! typeName e with
    | None => Err NotAttached
    | Some tid => let e' := triggered srv e tid in Ok (dispatch srv e', e')
    end
  else Err NotAttached.

(** ** The server invariant *)

(** The ids handed out so far are the first [srv_eventCount] ids of the
    generator, in order; the receive times are non-decreasing and not
    ahead of the clock. *)
Definition server_wf (srv : QUaServer) : Prop :=
  map en_EventId (srv_dispatched srv) = map eventId_of (seq 0 (srv_eventCount srv)) /\
  nondecreasing (map en_ReceiveTime (srv_dispatched srv)) /\
  Forall (fun t => t <= srv_clock srv) (map en_ReceiveTime (srv_dispatched srv)).

(** The values a caller set, which [trigger] keeps. *)
Definition caller_fields (e : QUaBaseEvent) :=
  (nodeId e, typeName e, SourceName e, Time e, Message e, Severity e, m_nodeIdOriginator e).

(** The contract of [trigger] as spec section 4.1 states it, without
    reference to the generator: a fresh non-empty id also kept as the
    outstanding id, the clock's time, the registered type, the resolved
    source, the caller's values untouched, exactly one notification
    appended, the clock unchanged. *)
Definition trigger_contract (srv : QUaServer) (e : QUaBaseEvent)
    (srv' : QUaServer) (e' : QUaBaseEvent) : Prop :=
  (EventId e' ∉ map en_EventId (srv_dispatched srv)) /\
  EventId e' <> [] /\
  m_outEventId e' = EventId e' /\
  ReceiveTime e' = srv_clock srv /\
  srv_types srv !! typeName e = Some (EventType e') /\
  SourceNode e' = resolveSourceNode srv e /\
  caller_fields e' = caller_fields e /\
  srv_dispatched srv' = srv_dispatched srv ++ [notification_of e'] /\
  srv_clock srv' = srv_clock srv.

(** ** Generator lemmas *)

Lemma eventId_of_inj k n :
  Z.of_nat k < EVENTID_CAPACITY -> Z.of_nat n < EVENTID_CAPACITY ->
  eventId_of k = eventId_of n -> k = n.
Proof. unfold eventId_of. intros Hk Hn E. apply eventId_bytes_inj in E; lia. Qed.

Lemma eventId_of_fresh n :
  Z.of_nat n < EVENTID_CAPACITY -> eventId_of n ∉ map eventId_of (seq 0 n).
Proof.
  intros Hn Hin. apply list_elem_of_In, in_map_iff in Hin as (k & Hk & Hseq).
  apply in_seq in Hseq. apply eventId_of_inj in Hk; lia.
Qed.

Lemma eventId_of_nonempty n : eventId_of n <> [].
Proof.
  intros E. assert (L : length (eventId_of n) = EVENTID_LENGTH)
    by (unfold eventId_of; apply length_eventId_bytes).
  rewrite E in L. discriminate.
Qed.

Lemma NoDup_issued n :
  Z.of_nat n <= EVENTID_CAPACITY -> NoDup (map eventId_of (seq 0 n)).
Proof.
  induction n as [|n IH]; intros Hn; [constructor|].
  rewrite seq_S, map_app. simpl. apply NoDup_snoc.
  - apply eventId_of_fresh. lia.
  - apply IH. lia.
Qed.

(** ** Inversion of trigger *)

Lemma trigger_Ok_inv srv e srv' e' :
  trigger srv e = Ok (srv', e') ->
  nodeId e ∈ srv_nodes srv /\
  exists tid, srv_types srv !! typeName e = Some tid /\
              e' = triggered srv e tid /\ srv' = dispatch srv e'.
Proof.
  unfold trigger. case_decide; [|discriminate].
  destruct (srv_types srv !! typeName e) eqn:T; [|discriminate].
  intros [= <- <-]. eauto 6.
Qed.

Lemma trigger_attached srv e tid :
  nodeId e ∈ srv_nodes srv -> srv_types srv !! typeName e = Some tid ->
  trigger srv e = Ok (dispatch srv (triggered srv e tid), triggered srv e tid).
Proof. intros Hn Ht. unfold trigger. rewrite decide_True by done. by rewrite Ht. Qed.

Lemma dispatch_wf srv e :
  server_wf srv -> ReceiveTime e = srv_clock srv ->
  EventId e = eventId_of (srv_eventCount srv) -> server_wf (dispatch srv e).
Proof.
  intros (Hids & Hnd & Hle) Ht Hid. unfold server_wf, dispatch.
  cbn [srv_dispatched srv_eventCount srv_clock].
  rewrite !map_app, Hids, seq_S, map_app. simpl. rewrite Hid, Ht. split; [done|].
  split.
  - by apply nondecreasing_snoc.
  - apply Forall_app. split; [done|]. by constructor.
Qed.

Lemma trigger_wf srv e srv' e' :
  server_wf srv -> trigger srv e = Ok (srv', e') -> server_wf srv'.
Proof.
  intros Hwf (_ & tid & _ & -> & ->)%trigger_Ok_inv. by apply dispatch_wf.
Qed.

Lemma trigger_dispatched srv e srv' e' :
  trigger srv e = Ok (srv', e') ->
  srv_dispatched srv' = srv_dispatched srv ++ [notification_of e'] /\
  Severity e' = Severity e /\ nodeId e' = nodeId e /\
  m_outEventId e' = EventId e' /\ ReceiveTime e' = srv_clock srv.
Proof. intros (_ & tid & _ & -> & ->)%trigger_Ok_inv. done. Qed.

Lemma advanceClock_wf srv d : server_wf srv -> server_wf (advanceClock srv d).
Proof.
  intros (Hids & Hnd & Hle). split; [done|]. split; [done|]. simpl.
  eapply Forall_impl; [exact Hle|]. simpl. lia.
Qed.

Lemma runtime_ops_wf srv n name tid :
  server_wf srv ->
  server_wf (addNode srv n) /\ server_wf (deleteNode srv n) /\
  server_wf (registerType srv name tid).
Proof. intros Hwf. by repeat split; apply Hwf. Qed.

#[export] Hint Resolve trigger_wf advanceClock_wf : ua.

(** ** Properties of trigger *)

(** C1. [trigger] implements the contract of spec section 4.1: on a
    well-formed server whose generator has not reached its capacity, a
    successful trigger gives the event a fresh non-empty id (also kept as
    [m_outEventId]), the clock's time as receive time, the registered
    type and the resolved source, keeps every caller-set value, appends
    exactly its notification to the sink, and leaves the server
    well-formed. *)
Theorem trigger_refines srv e srv' e' :
  server_wf srv -> Z.of_nat (srv_eventCount srv) < EVENTID_CAPACITY ->
  trigger srv e = Ok (srv', e') ->
  trigger_contract srv e srv' e' /\ server_wf srv'.
Proof.
  intros Hwf Hcap Htr. split; [|eauto with ua].
  apply trigger_Ok_inv in Htr as (_ & tid & Ht & -> & ->).
  destruct Hwf as (Hids & _).
  unfold trigger_contract, triggered, dispatch; simpl. rewrite Hids.
  repeat split; auto using eventId_of_fresh, eventId_of_nonempty.
Qed.

(** C2. The severity setter does not range-check: any quint16 value,
    0 and 1001 included, is stored, and [trigger] dispatches it; an
    integer argument is reduced modulo 2^16. *)
Theorem setSeverity_trigger_unchecked srv e v :
  nodeId e ∈ srv_nodes srv -> is_Some (srv_types srv !! typeName e) ->
  exists srv' e', trigger srv (setSeverity e v) = Ok (srv', e') /\
    last (srv_dispatched srv') = Some (notification_of e') /\
    en_Severity (notification_of e') = v mod 2 ^ 16.
Proof.
  intros Hn [tid Ht]. exists (dispatch srv (triggered srv (setSeverity e v) tid)),
    (triggered srv (setSeverity e v) tid).
  unfold trigger. rewrite decide_True by done. simpl. rewrite Ht.
  split; [done|]. split; [|done]. unfold dispatch. simpl. by rewrite last_snoc.
Qed.

(** ** Witnesses on a concrete server *)

(** A server with one event node [ns=1;i=1] of the registered class
    "QUaBaseEvent" (type node [i=2041], BaseEventType), originated by the
    node [ns=1;i=7]. *)
Definition ex_srv : QUaServer :=
  registerType (addNode (addNode (QUaServer_init 100) (UA_NODEID_NUMERIC 1 1))
                        (UA_NODEID_NUMERIC 1 7))
               "QUaBaseEvent" (UA_NODEID_NUMERIC 0 2041).

Definition ex_event : QUaBaseEvent :=
  setMessage (setSourceName (QUaBaseEvent_new (UA_NODEID_NUMERIC 1 1) "QUaBaseEvent"
                                              (UA_NODEID_NUMERIC 1 7)) "TankLevel")
             "High level".

Lemma trigger_refines_witness :
  exists srv' e', trigger ex_srv ex_event = Ok (srv', e') /\
    trigger_contract ex_srv ex_event srv' e' /\ server_wf srv'.
Proof.
  destruct (trigger ex_srv ex_event) as [[srv' e']|err] eqn:E;
    [|vm_compute in E; discriminate].
  exists srv', e'. split; [reflexivity|].
  apply (trigger_refines ex_srv ex_event srv' e');
    [split; [reflexivity | split; [exact I | constructor]] | vm_compute; reflexivity | exact E].
Defined.

Lemma setSeverity_trigger_unchecked_witness :
  exists srv' e', trigger ex_srv (setSeverity ex_event 0) = Ok (srv', e') /\
    last (srv_dispatched srv') = Some (notification_of e') /\
    en_Severity (notification_of e') = 0.
Proof.
  apply (setSeverity_trigger_unchecked ex_srv ex_event 0);
    [vm_compute; reflexivity | vm_compute; eexists; reflexivity].
Defined.

End BaseEvent.
