(* ===== verification/EventProperties.v ===== *)
(** * The properties of a QUaBaseEvent as address-space children

    In [src/src/wrapper/quabaseevent.h] each property is a child node of
    the event, a [QUaProperty] reached through a private getter
    ([getEventId] ... [getSeverity]) by its browse name; the table at the
    top of the header gives each its DataType.  The comment taken from
    open62541 says which four attributes the server sets itself.  This
    file models the getters as one lookup by browse name, the table's
    DataTypes, and the server-set attributes.  It holds definitions only:
    the record of [BaseEvent] is what the theorems of the development
    are stated on, and this file gives the reader the correspondence
    between its fields and the header's property children. *)

From S2P Require Import Prelude BaseEvent.

Module EventProperties.
Import BaseEvent.

(** ** Data *)

(** The DataType column of the table (Part 5 Table 23). *)
Inductive UaDataType :=
| DTByteString | DTNodeId | DTString | DTUtcTime | DTLocalizedText | DTUInt16.

#[export] Instance UaDataType_eq_dec : EqDecision UaDataType.
Proof. solve_decision. Defined.

(** The value a [QUaProperty] holds. *)
Inductive UaVariant :=
| VByteString (b : list Byte.byte)
| VNodeId (n : UaNodeId)
| VString (s : string)
| VUtcTime (t : UtcTime)
| VLocalizedText (s : string)
| VUInt16 (v : Z).

Definition variant_type (v : UaVariant) : UaDataType :=
  match v with
  | VByteString _ => DTByteString | VNodeId _ => DTNodeId | VString _ => DTString
  | VUtcTime _ => DTUtcTime | VLocalizedText _ => DTLocalizedText | VUInt16 _ => DTUInt16
  end.

(** The Mandatory rows of the table: browse name and DataType. *)
Definition BaseEventTypeProperties : list (string * UaDataType) :=
  [("EventId", DTByteString); ("EventType", DTNodeId); ("SourceNode", DTNodeId);
   ("SourceName", DTString); ("Time", DTUtcTime); ("ReceiveTime", DTUtcTime);
   ("Message", DTLocalizedText); ("Severity", DTUInt16)]%string.

Definition propertyDataType (browseName : string) : option UaDataType :=
  (list_to_map BaseEventTypeProperties : gmap string UaDataType) !! browseName.

(** The attributes open62541 sets itself when an event is triggered. *)
Definition serverSetProperties : list string :=
  ["EventId"; "ReceiveTime"; "SourceNode"; "EventType"]%string.

(** The private getters [getEventId()] ... [getSeverity()]: the child
    property with the given browse name.  [getLocalTime()] finds no
    child, the optional LocalTime property not being added. *)
Definition getProperty (e : QUaBaseEvent) (browseName : string) : option UaVariant :=
  if bool_decide (browseName = "EventId"%string) then Some (VByteString (EventId e))
  else if bool_decide (browseName = "EventType"%string) then Some (VNodeId (EventType e))
  else if bool_decide (browseName = "SourceNode"%string) then Some (VNodeId (SourceNode e))
  else if bool_decide (browseName = "SourceName"%string) then Some (VString (SourceName e))
  else if bool_decide (browseName = "Time"%string) then Some (VUtcTime (Time e))
  else if bool_decide (browseName = "ReceiveTime"%string) then Some (VUtcTime (ReceiveTime e))
  else if bool_decide (browseName = "Message"%string) then Some (VLocalizedText (Message e))
  else if bool_decide (browseName = "Severity"%string) then Some (VUInt16 (Severity e))
  else None.

End EventProperties.
