(* ===== verification/Condition.v ===== *)
(** * QUaCondition and the interface to the base event

    [QUaAcknowledgeableCondition] derives from [QUaCondition], which
    derives from [QUaBaseEvent] (the header's include of <QUaCondition>).
    [QUaCondition] is not among the sources; it is modelled from the
    contract spec section 3 states: a retain flag and an enable state
    kept across the many notifications a condition emits.

    The C++ inheritance is rendered by the class [HasEvent]: a derived
    object exposes its base event and can be rebuilt around an updated
    one (a lens with its three laws).  [triggerT] is [trigger] seen
    through the interface, and its lemmas are proved once, against the
    class; each derived record discharges the laws. *)

From S2P Require Import Prelude BaseEvent.

Module Condition.
Import BaseEvent.
Local Open Scope ua_scope.

Class HasEvent (T : Type) := {
  base_event : T -> QUaBaseEvent;
  with_event : T -> QUaBaseEvent -> T;
  base_with_event : forall x e, base_event (with_event x e) = e;
  with_base_event : forall x, with_event x (base_event x) = x;
  with_event_twice : forall x e1 e2, with_event (with_event x e1) e2 = with_event x e2
}.

(** [trigger()] called on a derived object: the base event is triggered
    in place, the derived state is kept. *)
Definition triggerT {T} `{HasEvent T} (srv : QUaServer) (x : T) : res (QUaServer * T) :=
  r <- trigger srv (base_event x) ;; Ok (r.1, with_event x r.2).

#[export] Instance QUaBaseEvent_HasEvent : HasEvent QUaBaseEvent.
Proof. refine {| base_event := fun e => e; with_event := fun _ e => e |}; done. Defined.

(** ** QUaCondition *)

Record QUaCondition := mkQUaCondition {
  cond_event : QUaBaseEvent;
  Retain : bool;
  EnabledState : bool
}.

#[export] Instance QUaCondition_HasEvent : HasEvent QUaCondition.
Proof.
  refine {| base_event := cond_event;
            with_event := fun c e => {| cond_event := e; Retain := Retain c;
                                        EnabledState := EnabledState c |} |};
    by intros [].
Defined.

(** A new condition of class [tname]: not retained, enabled. *)
Definition QUaCondition_new (n : UaNodeId) (tname : string) (originator : UaNodeId)
  : QUaCondition :=
  {| cond_event := QUaBaseEvent_new n tname originator; Retain := false;
     EnabledState := true |}.

Definition setRetain (c : QUaCondition) (b : bool) : QUaCondition :=
  {| cond_event := cond_event c; Retain := b; EnabledState := EnabledState c |}.

(** ** Lemmas on triggerT, proved against the interface *)

Section TriggerT.
Context {T : Type} `{HE : HasEvent T}.

Lemma triggerT_Ok_inv srv (x : T) srv' x' :
  triggerT srv x = Ok (srv', x') ->
  trigger srv (base_event x) = Ok (srv', base_event x') /\
  x' = with_event x (base_event x').
Proof.
  unfold triggerT. intros ([s e] & Ht & [= <- <-])%res_bind_Ok_inv.
  simpl. by rewrite base_with_event.
Qed.

Lemma triggerT_attached srv (x : T) tid :
  nodeId (base_event x) ∈ srv_nodes srv -> srv_types srv !! typeName (base_event x) = Some tid ->
  triggerT srv x = Ok (dispatch srv (triggered srv (base_event x) tid),
                       with_event x (triggered srv (base_event x) tid)).
Proof. intros Hn Ht. unfold triggerT. by rewrite (trigger_attached _ _ tid). Qed.

Lemma triggerT_wf srv (x : T) srv' x' :
  server_wf srv -> triggerT srv x = Ok (srv', x') -> server_wf srv'.
Proof. intros Hwf [Ht _]%triggerT_Ok_inv. eauto with ua. Qed.

End TriggerT.

#[export] Hint Resolve triggerT_wf : ua.

End Condition.
