(* ===== verification/AcknowledgeableCondition.v ===== *)
(** * QUaAcknowledgeableCondition: Acknowledge and Confirm

    Models [src/src/wrapper/quaacknowledgeablecondition.h]: a condition
    with the two client methods [Acknowledge(EventId, Comment)] and
    [Confirm(EventId, Comment)] and the [confirmAllowed] flag.  The
    acknowledgement state is kept as Part 9 keeps it, two two-state
    variables (AckedState, ConfirmedState); the spec's three-phase
    machine (section 4.2) is the inductive [ack_step], and the methods
    refine it; [flags_of_phase] gives the flags each phase stands for.
    The bodies are not in the sources: the guards and their order follow
    spec sections 3, 4.2, 7 and 8 (the quoted id first; for Confirm the
    confirmAllowed guard next, which rejects the call regardless of the
    state; then the phase). *)

From S2P Require Import Prelude BaseEvent Condition.

Module AckCond.
Import BaseEvent Condition.

(** ** Data and operations *)

Record QUaAcknowledgeableCondition := mkQUaAcknowledgeableCondition {
  ac_condition : QUaCondition;
  AckedState : bool;
  ConfirmedState : bool;
  Comment : string;
  m_confirmAllowed : bool
}.

#[export] Instance QUaAcknowledgeableCondition_HasEvent :
  HasEvent QUaAcknowledgeableCondition.
Proof.
  refine {| base_event := fun c => cond_event (ac_condition c);
            with_event := fun c e =>
              {| ac_condition := {| cond_event := e; Retain := Retain (ac_condition c);
                                    EnabledState := EnabledState (ac_condition c) |};
                 AckedState := AckedState c; ConfirmedState := ConfirmedState c;
                 Comment := Comment c; m_confirmAllowed := m_confirmAllowed c |} |};
    by intros [[]].
Defined.

(** [QUaAcknowledgeableCondition(server)]: unacknowledged, unconfirmed,
    confirmation allowed. *)
Definition QUaAcknowledgeableCondition_new (n : UaNodeId) (originator : UaNodeId)
  : QUaAcknowledgeableCondition :=
  {| ac_condition := QUaCondition_new n "QUaAcknowledgeableCondition" originator;
     AckedState := false; ConfirmedState := false; Comment := "";
     m_confirmAllowed := true |}.

Definition confirmAllowed (c : QUaAcknowledgeableCondition) : bool := m_confirmAllowed c.

Definition setConfirmAllowed (c : QUaAcknowledgeableCondition) (b : bool)
  : QUaAcknowledgeableCondition :=
  {| ac_condition := ac_condition c; AckedState := AckedState c;
     ConfirmedState := ConfirmedState c; Comment := Comment c; m_confirmAllowed := b |}.

(** [setRetain] of the base [QUaCondition], on an acknowledgeable one. *)
Definition ac_setRetain (c : QUaAcknowledgeableCondition) (b : bool)
  : QUaAcknowledgeableCondition :=
  {| ac_condition := setRetain (ac_condition c) b; AckedState := AckedState c;
     ConfirmedState := ConfirmedState c; Comment := Comment c;
     m_confirmAllowed := m_confirmAllowed c |}.

(** The id a client quotes must be the condition's outstanding one, the
    id of its last notification; a condition that never triggered has
    none (the null ByteString matches nothing). *)
Definition eventId_matches (c : QUaAcknowledgeableCondition) (EventId : list Byte.byte) : bool :=
  match m_outEventId (base_event c) with
  | [] => false
  | out => bool_decide (EventId = out)
  end.

Definition record_action (c : QUaAcknowledgeableCondition) (acked confirmed : bool)
    (comment : string) : QUaAcknowledgeableCondition :=
  {| ac_condition := ac_condition c; AckedState := acked; ConfirmedState := confirmed;
     Comment := comment; m_confirmAllowed := m_confirmAllowed c |}.

(** [Acknowledge(EventId, Comment)]: checks the id, then the state;
    records the comment and triggers the follow-up notification. *)
Definition Acknowledge (srv : QUaServer) (c : QUaAcknowledgeableCondition)
    (EventId : list Byte.byte) (Comment : string)
  : res (QUaServer * QUaAcknowledgeableCondition) :=
  if negb (eventId_matches c EventId) then Err InvalidEventId
  else if AckedState c then Err AlreadyAcknowledged
  else triggerT srv (record_action c true (ConfirmedState c) Comment).

(** [Confirm(EventId, Comment)]: checks the id, then the [confirmAllowed]
    guard (spec 3: when false, Confirm is rejected regardless of the
    acknowledgement state), then the state (confirmed already, not yet
    acknowledged). *)
Definition Confirm (srv : QUaServer) (c : QUaAcknowledgeableCondition)
    (EventId : list Byte.byte) (Comment : string)
  : res (QUaServer * QUaAcknowledgeableCondition) :=
  if negb (eventId_matches c EventId) then Err InvalidEventId
  else if negb (m_confirmAllowed c) then Err ConfirmNotAllowed
  else if ConfirmedState c then Err AlreadyConfirmed
  else if negb (AckedState c) then Err NotAcknowledged
  else triggerT srv (record_action c true true Comment).

(** ** The abstract machine of spec section 4.2 *)

Inductive AckPhase := Unacknowledged | Acknowledged | Confirmed.

#[export] Instance AckPhase_eq_dec : EqDecision AckPhase.
Proof. solve_decision. Defined.

Inductive AckMethod := MAcknowledge | MConfirm.

(** The transitions of the spec's table; the guard of Confirm is the
    [confirmAllowed] flag. *)
Inductive ack_step (allowed : bool) : AckPhase -> AckMethod -> AckPhase -> Prop :=
| ack_step_acknowledge : ack_step allowed Unacknowledged MAcknowledge Acknowledged
| ack_step_confirm : allowed = true -> ack_step allowed Acknowledged MConfirm Confirmed.

(** The phase the two flags represent. *)
Definition phase (c : QUaAcknowledgeableCondition) : AckPhase :=
  if ConfirmedState c then Confirmed
  else if AckedState c then Acknowledged
  else Unacknowledged.

(** The flags that represent each phase. *)
Definition flags_of_phase (p : AckPhase) : bool * bool :=
  match p with
  | Unacknowledged => (false, false)
  | Acknowledged => (true, false)
  | Confirmed => (true, true)
  end.

(** The flags never say "confirmed but not acknowledged". *)
Definition ack_wf (c : QUaAcknowledgeableCondition) : Prop :=
  ConfirmedState c = true -> AckedState c = true.

Definition callMethod (m : AckMethod) (srv : QUaServer) (c : QUaAcknowledgeableCondition)
    (EventId : list Byte.byte) (Comment : string) :=
  match m with
  | MAcknowledge => Acknowledge srv c EventId Comment
  | MConfirm => Confirm srv c EventId Comment
  end.

(** A successful method call records the action, with the condition
    acknowledged, and triggers it. *)
Lemma callMethod_triggerT m srv c id cm srv' c' :
  callMethod m srv c id cm = Ok (srv', c') ->
  exists f, triggerT srv (record_action c true f cm) = Ok (srv', c').
Proof.
  destruct m; simpl; unfold Acknowledge, Confirm;
    destruct (eventId_matches c id), (AckedState c), (ConfirmedState c), (m_confirmAllowed c);
    simpl; try discriminate; eauto.
Qed.

Lemma triggerT_ack_fields srv c srv' c' :
  triggerT srv c = Ok (srv', c') ->
  AckedState c' = AckedState c /\ ConfirmedState c' = ConfirmedState c /\
  Comment c' = Comment c /\ m_confirmAllowed c' = m_confirmAllowed c.
Proof. intros [_ ->]%triggerT_Ok_inv. done. Qed.

Lemma phase_triggerT srv c srv' c' :
  triggerT srv c = Ok (srv', c') -> phase c' = phase c /\ (ack_wf c' <-> ack_wf c).
Proof.
  intros (H1 & H2 & _)%triggerT_ack_fields. unfold phase, ack_wf. by rewrite H1, H2.
Qed.

Lemma callMethod_trigger m srv c id cm srv' c' :
  callMethod m srv c id cm = Ok (srv', c') ->
  ack_wf c' /\ Comment c' = cm /\ m_confirmAllowed c' = m_confirmAllowed c /\
  trigger srv (base_event c) = Ok (srv', base_event c').
Proof.
  intros (f & Ht)%callMethod_triggerT.
  pose proof (phase_triggerT _ _ _ _ Ht) as [_ Hw].
  pose proof (triggerT_ack_fields _ _ _ _ Ht) as (_ & _ & Hc & Hca).
  apply triggerT_Ok_inv in Ht as [Ht _]. repeat split; [by apply Hw|done|done|exact Ht].
Qed.

(** On an attached condition with consistent flags and the outstanding
    id, a method call for which the abstract machine has a step succeeds:
    it records the step's target flags and triggers the condition. *)
Lemma callMethod_attached m srv c id cm tid p :
  ack_wf c -> eventId_matches c id = true ->
  nodeId (base_event c) ∈ srv_nodes srv -> srv_types srv !! typeName (base_event c) = Some tid ->
  ack_step (m_confirmAllowed c) (phase c) m p ->
  callMethod m srv c id cm =
    Ok (dispatch srv (triggered srv (base_event c) tid),
        with_event (record_action c (flags_of_phase p).1 (flags_of_phase p).2 cm)
                   (triggered srv (base_event c) tid)).
Proof.
  intros Hwf Hid Hn Ht Hs. destruct c as [cond ack conf cmt allowed].
  unfold ack_wf, phase in *; simpl in *.
  inversion Hs; subst; destruct ack, conf; try discriminate; try (by specialize (Hwf eq_refl));
    simpl; unfold Acknowledge, Confirm; simpl; rewrite Hid; simpl;
    by erewrite triggerT_attached; [|exact Hn|exact Ht].
Qed.

Lemma eventId_matches_outstanding c :
  m_outEventId (base_event c) <> [] -> eventId_matches c (m_outEventId (base_event c)) = true.
Proof.
  unfold eventId_matches. destruct (m_outEventId _); [done|]. intros _.
  first [reflexivity | by apply bool_decide_eq_true].
Qed.

(** ** Properties *)

(** C3. Acknowledge and Confirm refine the three-phase machine of spec
    section 4.2: for a condition with consistent flags, attached to the
    server, and the outstanding event id, a method call succeeds exactly
    when the machine has the transition, and it lands in the transition's
    target phase. *)
Theorem methods_refine_phase_machine m srv c id cm :
  ack_wf c -> eventId_matches c id = true ->
  nodeId (base_event c) ∈ srv_nodes srv -> is_Some (srv_types srv !! typeName (base_event c)) ->
  forall p, ack_step (m_confirmAllowed c) (phase c) m p <->
    exists srv' c', callMethod m srv c id cm = Ok (srv', c') /\ phase c' = p.
Proof.
  intros Hwf Hid Hn [tid Ht] p. split.
  - intros Hs. erewrite callMethod_attached; [|done..]. eexists _, _. split; [done|].
    destruct c. inversion Hs; subst; reflexivity.
  - intros (srv' & c' & H & <-). destruct c as [cond ack conf cmt allowed].
    unfold ack_wf in Hwf; simpl in Hwf.
    destruct m; simpl in H; unfold Acknowledge, Confirm in H; simpl in H; rewrite Hid in H;
      destruct ack, conf, allowed; simpl in H; try discriminate;
      try (by specialize (Hwf eq_refl));
      apply phase_triggerT in H as [-> _]; simpl; by constructor.
Qed.

(** C4. A successful Acknowledge or Confirm keeps the flags consistent
    and the server well-formed, records the comment, leaves
    [confirmAllowed] alone, and documents the action by exactly one
    follow-up notification whose id becomes the outstanding one. *)
Theorem methods_preserve_invariants m srv c id cm srv' c' :
  ack_wf c -> server_wf srv -> callMethod m srv c id cm = Ok (srv', c') ->
  ack_wf c' /\ server_wf srv' /\ Comment c' = cm /\
  m_confirmAllowed c' = m_confirmAllowed c /\
  srv_dispatched srv' = srv_dispatched srv ++ [notification_of (base_event c')] /\
  m_outEventId (base_event c') = EventId (base_event c').
Proof.
  intros Hwf Hs H. apply callMethod_trigger in H as (Hw & Hc & Ha & Ht).
  split; [done|]. split; [eauto with ua|]. do 2 (split; [done|]).
  apply trigger_Ok_inv in Ht as (_ & tid & _ & He & ->). rewrite He. by split.
Qed.

(** C5. Once a method call succeeded, the id it quoted (an id already
    dispatched) is stale: every later Acknowledge or Confirm quoting it
    is rejected with InvalidEventId. *)
Theorem stale_eventId_rejected m m' srv c id cm cm' srv' c' :
  ack_wf c -> server_wf srv -> Z.of_nat (srv_eventCount srv) < EVENTID_CAPACITY ->
  id ∈ map en_EventId (srv_dispatched srv) ->
  callMethod m srv c id cm = Ok (srv', c') ->
  callMethod m' srv' c' id cm' = Err InvalidEventId.
Proof.
  intros Hwf Hs Hcap Hin H. apply callMethod_trigger in H as (_ & _ & _ & Ht).
  apply trigger_Ok_inv in Ht as (_ & tid & _ & He & _).
  assert (Hne : m_outEventId (base_event c') <> id).
  { rewrite He. intros Heq. destruct Hs as [Hids _].
    simpl in Heq. apply (eventId_of_fresh _ Hcap). rewrite <- Hids, Heq. exact Hin. }
  assert (Hm : eventId_matches c' id = false).
  { unfold eventId_matches. destruct (m_outEventId _) as [|b l]; [done|].
    apply bool_decide_eq_false. congruence. }
  destruct m'; simpl; unfold Acknowledge, Confirm; by rewrite Hm.
Qed.

(** C6. The error branches of spec sections 3, 4.2 and 8: a wrong id is
    InvalidEventId for both methods; with the right id, Acknowledge on an
    acknowledged condition is AlreadyAcknowledged; Confirm with the guard
    off is ConfirmNotAllowed whatever the acknowledgement state; with the
    guard on, Confirm before Acknowledge is NotAcknowledged and Confirm on
    a confirmed condition is AlreadyConfirmed. *)
Theorem method_errors srv c id cm :
  ack_wf c ->
  (eventId_matches c id = false ->
     forall m, callMethod m srv c id cm = Err InvalidEventId) /\
  (eventId_matches c id = true ->
     (phase c <> Unacknowledged -> Acknowledge srv c id cm = Err AlreadyAcknowledged) /\
     (m_confirmAllowed c = false -> Confirm srv c id cm = Err ConfirmNotAllowed) /\
     (m_confirmAllowed c = true -> phase c = Unacknowledged ->
        Confirm srv c id cm = Err NotAcknowledged) /\
     (m_confirmAllowed c = true -> phase c = Confirmed ->
        Confirm srv c id cm = Err AlreadyConfirmed)).
Proof.
  intros Hwf. split.
  - intros Hm []; simpl; unfold Acknowledge, Confirm; by rewrite Hm.
  - intros Hm. unfold ack_wf, phase, Acknowledge, Confirm in *. rewrite Hm. simpl.
    destruct (AckedState c), (ConfirmedState c), (m_confirmAllowed c);
      try (by specialize (Hwf eq_refl)); repeat split; simpl; congruence.
Qed.

(** ** Witnesses *)

(** An acknowledgeable condition [ns=1;i=10] reporting on [ns=1;i=7],
    triggered once on a server where its class is registered. *)
Definition ex_srv0 : QUaServer :=
  registerType (addNode (addNode (QUaServer_init 100) (UA_NODEID_NUMERIC 1 10))
                        (UA_NODEID_NUMERIC 1 7))
               "QUaAcknowledgeableCondition" (UA_NODEID_NUMERIC 0 2881).

Definition ex_triggered : QUaServer * QUaAcknowledgeableCondition :=
  let c := QUaAcknowledgeableCondition_new (UA_NODEID_NUMERIC 1 10) (UA_NODEID_NUMERIC 1 7) in
  match triggerT ex_srv0 c with Ok p => p | Err _ => (ex_srv0, c) end.

Definition ex_srv1 : QUaServer := fst ex_triggered.
Definition ex_cond1 : QUaAcknowledgeableCondition := snd ex_triggered.
Definition ex_id1 : list Byte.byte := m_outEventId (base_event ex_cond1).

Lemma methods_refine_phase_machine_witness :
  exists srv' c', callMethod MAcknowledge ex_srv1 ex_cond1 ex_id1 "ack by operator" = Ok (srv', c')
                  /\ phase c' = Acknowledged.
Proof.
  refine (proj1 (methods_refine_phase_machine MAcknowledge ex_srv1 ex_cond1 ex_id1
                   "ack by operator" _ _ _ _ Acknowledged) _).
  - vm_compute. discriminate.
  - vm_compute. reflexivity.
  - vm_compute. reflexivity.
  - vm_compute. eexists. reflexivity.
  - vm_compute. constructor.
Defined.

Lemma methods_preserve_invariants_witness :
  exists srv' c', callMethod MAcknowledge ex_srv1 ex_cond1 ex_id1 "ack by operator" = Ok (srv', c')
    /\ Comment c' = "ack by operator"%string.
Proof.
  destruct (callMethod MAcknowledge ex_srv1 ex_cond1 ex_id1 "ack by operator")
    as [[srv' c']|err] eqn:E; [|vm_compute in E; discriminate].
  exists srv', c'. split; [reflexivity|].
  refine (proj1 (proj2 (proj2 (methods_preserve_invariants MAcknowledge ex_srv1 ex_cond1 ex_id1
                  "ack by operator" srv' c' _ _ E)))).
  - vm_compute. discriminate.
  - vm_compute. split; [reflexivity|]. split; [split; [constructor|exact I]|].
    repeat constructor; discriminate.
Defined.

Lemma stale_eventId_rejected_witness :
  exists srv' c', callMethod MAcknowledge ex_srv1 ex_cond1 ex_id1 "ack by operator" = Ok (srv', c')
    /\ callMethod MConfirm srv' c' ex_id1 "confirm" = Err InvalidEventId.
Proof.
  destruct (callMethod MAcknowledge ex_srv1 ex_cond1 ex_id1 "ack by operator")
    as [[srv' c']|err] eqn:E; [|vm_compute in E; discriminate].
  exists srv', c'. split; [reflexivity|].
  apply (stale_eventId_rejected MAcknowledge MConfirm ex_srv1 ex_cond1 ex_id1
           "ack by operator" "confirm" srv' c'); [| | | |exact E].
  - vm_compute. discriminate.
  - vm_compute. split; [reflexivity|]. split; [split; [constructor|exact I]|].
    repeat constructor; discriminate.
  - vm_compute. reflexivity.
  - vm_compute. left.
Defined.

Lemma method_errors_witness :
  Confirm ex_srv1 ex_cond1 ex_id1 "too early" = Err NotAcknowledged.
Proof.
  apply (proj1 (proj2 (proj2 (proj2 (method_errors ex_srv1 ex_cond1 ex_id1 "too early"
                                        ltac:(vm_compute; discriminate))
                                 ltac:(vm_compute; reflexivity))))).
  - vm_compute. reflexivity.
  - vm_compute. reflexivity.
Defined.

End AckCond.
