(* ===== verification/ExclusiveLimitStateMachine.v ===== *)
(** * QUaExclusiveLimitStateMachine

    Models [src/src/wrapper/quaexclusivelimitstatemachine.h]: a
    [QUaFiniteStateMachine] for the Part 9 5.8.12.2
    ExclusiveLimitStateMachineType.  Its states are the four limit bands
    (HighHigh, High, Low, LowLow) and its named transitions the four
    moves between neighbouring bands; [CurrentState] is empty while no
    band is active.  The owning alarm decides when to move
    ([setState], spec section 4.3); re-entering the current state is a
    no-op.  The header leaves its Part 9 comment empty, so the bands and
    transitions follow spec section 4.3.  Theorems: [transition_of]
    names exactly the moves between neighbouring bands, and [setState]
    makes its target the only current state, records the transition
    that reached it and is idempotent. *)

From S2P Require Import Prelude.

Module ExclusiveLimit.

Inductive ExclusiveLimitState := HighHigh | High | Low | LowLow.

#[export] Instance ExclusiveLimitState_eq_dec : EqDecision ExclusiveLimitState.
Proof. solve_decision. Defined.

Definition allLimitStates : list ExclusiveLimitState := [HighHigh; High; Low; LowLow].

Inductive ExclusiveLimitTransition :=
| HighHighToHigh | HighToHighHigh | LowLowToLow | LowToLowLow.

#[export] Instance ExclusiveLimitTransition_eq_dec : EqDecision ExclusiveLimitTransition.
Proof. solve_decision. Defined.

Definition transition_from (t : ExclusiveLimitTransition) : ExclusiveLimitState :=
  match t with
  | HighHighToHigh => HighHigh | HighToHighHigh => High
  | LowLowToLow => LowLow | LowToLowLow => Low
  end.

Definition transition_to (t : ExclusiveLimitTransition) : ExclusiveLimitState :=
  match t with
  | HighHighToHigh => High | HighToHighHigh => HighHigh
  | LowLowToLow => Low | LowToLowLow => LowLow
  end.

(** The named transition between two states, if the type defines one. *)
Definition transition_of (from to : ExclusiveLimitState) : option ExclusiveLimitTransition :=
  match from, to with
  | HighHigh, High => Some HighHighToHigh
  | High, HighHigh => Some HighToHighHigh
  | LowLow, Low => Some LowLowToLow
  | Low, LowLow => Some LowToLowLow
  | _, _ => None
  end.

Record QUaExclusiveLimitStateMachine := mkQUaExclusiveLimitStateMachine {
  CurrentState : option ExclusiveLimitState;
  LastTransition : option ExclusiveLimitTransition
}.

(** [QUaExclusiveLimitStateMachine(server)]: no band active, no transition
    taken. *)
Definition QUaExclusiveLimitStateMachine_new : QUaExclusiveLimitStateMachine :=
  {| CurrentState := None; LastTransition := None |}.

(** The owning alarm moves the machine to [target] ([None]: no band).
    Entering the current state changes nothing; otherwise the current
    state is replaced at once and the last transition is the named one
    between the two bands, if any. *)
Definition setState (sm : QUaExclusiveLimitStateMachine) (target : option ExclusiveLimitState)
  : QUaExclusiveLimitStateMachine :=
  if decide (target = CurrentState sm) then sm
  else {| CurrentState := target;
          LastTransition := match CurrentState sm, target with
                            | Some f, Some t => transition_of f t
                            | _, _ => None
                            end |}.

(** The Active flag a client reads for band [b]. *)
Definition isActive (sm : QUaExclusiveLimitStateMachine) (b : ExclusiveLimitState) : bool :=
  bool_decide (CurrentState sm = Some b).

(** The last transition, when there is one, ends in the current state. *)
Definition limit_wf (sm : QUaExclusiveLimitStateMachine) : Prop :=
  forall tr, LastTransition sm = Some tr -> CurrentState sm = Some (transition_to tr).

(** ** Lemmas *)

Lemma transition_of_spec f t tr :
  transition_of f t = Some tr -> transition_from tr = f /\ transition_to tr = t.
Proof. destruct f, t; simpl; intros; simplify_eq; auto. Qed.

Lemma setState_current sm t : CurrentState (setState sm t) = t.
Proof. unfold setState. by repeat case_decide. Qed.

Lemma setState_wf sm t : limit_wf sm -> limit_wf (setState sm t).
Proof.
  unfold limit_wf, setState. intros Hwf tr. try (case_decide; [by apply Hwf|]). simpl.
  destruct (CurrentState sm) as [f|], t as [t|]; try discriminate.
  intros (_ & ->)%transition_of_spec. done.
Qed.

(** ** Properties *)

(** C7. [setState] makes the target the current state, in one step:
    afterwards exactly the target band is active (no band for [None]);
    entering the current state again is a no-op, so [setState] is
    idempotent. *)
Theorem setState_exclusive sm t :
  (forall b, isActive (setState sm t) b = bool_decide (t = Some b)) /\
  setState (setState sm t) t = setState sm t /\
  (t = CurrentState sm -> setState sm t = sm).
Proof.
  split; [|split].
  - intros b. unfold isActive. by rewrite setState_current.
  - unfold setState at 1. rewrite setState_current. repeat case_decide; try congruence; done.
  - intros ->. unfold setState. repeat case_decide; try congruence; done.
Qed.

End ExclusiveLimit.
