(* ===== verification/System.v ===== *)
(** * The server: its node store and runs of operations

    The objects of the three headers live in the server's address space
    and are reached through their node ids (spec section 3, ownership).
    [World] pairs the runtime state [QUaServer] with a [gmap] from node
    ids to the stored objects; [exec] performs one operation of a client
    (the methods Acknowledge and Confirm), of the owning application (the
    property setters, [trigger], [setConfirmAllowed]), of the owning alarm
    logic (moving a limit state machine) or of the runtime (clock, node
    creation and teardown, type registration).  An operation that fails
    returns its status and leaves the world unchanged.  Theorems: the
    server-wide invariant is preserved by every run; over any run the
    dispatched ids stay pairwise distinct, the dispatch log only grows,
    receive times are non-decreasing; a triggered condition always
    progresses to Confirmed through the two methods; deleting an
    originator nulls the next SourceNode; a successful trigger or method
    call on a condition keeps what [cond_identity] collects (spec 3: a
    Condition keeps its own state over its notifications); a condition
    re-created at a reused node accepts none of the old ids.  [scenario_ops] is the
    end-to-end scenario of spec section 8, used by the witnesses. *)

From S2P Require Import Prelude BaseEvent Condition AcknowledgeableCondition ExclusiveLimitStateMachine.

Module System.
Import BaseEvent Condition AckCond ExclusiveLimit.

(** ** Data *)

Inductive UaObject :=
| OBaseEvent (e : QUaBaseEvent)
| OAckCondition (c : QUaAcknowledgeableCondition)
| OLimitMachine (sm : QUaExclusiveLimitStateMachine).

Record World := mkWorld {
  w_server : QUaServer;
  w_objects : gmap UaNodeId UaObject
}.

Definition World_init (now : UtcTime) : World :=
  {| w_server := QUaServer_init now; w_objects := ∅ |}.

Inductive Op :=
| OpAddNode (n : UaNodeId)
| OpCreateEvent (n : UaNodeId) (tname : string) (originator : UaNodeId)
| OpCreateAckCondition (n originator : UaNodeId)
| OpCreateLimitMachine (n : UaNodeId)
| OpRegisterType (tname : string) (tid : UaNodeId)
| OpTick (d : N)
| OpDelete (n : UaNodeId)
| OpSetSourceName (n : UaNodeId) (s : string)
| OpSetTime (n : UaNodeId) (t : UtcTime)
| OpSetMessage (n : UaNodeId) (s : string)
| OpSetSeverity (n : UaNodeId) (v : Z)
| OpSetConfirmAllowed (n : UaNodeId) (b : bool)
| OpSetRetain (n : UaNodeId) (b : bool)
| OpTrigger (n : UaNodeId)
| OpAcknowledge (n : UaNodeId) (EventId : list Byte.byte) (Comment : string)
| OpConfirm (n : UaNodeId) (EventId : list Byte.byte) (Comment : string)
| OpSetLimitState (n : UaNodeId) (target : option ExclusiveLimitState).

(** ** Operations *)

Definition with_server (w : World) (srv : QUaServer) : World :=
  {| w_server := srv; w_objects := w_objects w |}.

Definition with_object (w : World) (srv : QUaServer) (n : UaNodeId) (o : UaObject) : World :=
  {| w_server := srv; w_objects := <[n := o]> (w_objects w) |}.

(** A node id can be taken when it is not null and not in use. *)
Definition fresh_node (w : World) (n : UaNodeId) : bool :=
  bool_decide (n <> UA_NODEID_NULL /\ n ∉ srv_nodes (w_server w)).

Definition create (w : World) (n : UaNodeId) (o : UaObject) : World * option StatusError :=
  if fresh_node w n then (with_object w (addNode (w_server w) n) n o, None)
  else (w, Some BadNodeIdExists).

(** A setter of the base event, on an event or on a condition. *)
Definition update_event (w : World) (n : UaNodeId) (f : QUaBaseEvent -> QUaBaseEvent)
  : World * option StatusError :=
  match w_objects w !! n with
  | Some (OBaseEvent e) => (with_object w (w_server w) n (OBaseEvent (f e)), None)
  | Some (OAckCondition c) =>
      (with_object w (w_server w) n (OAckCondition (with_event c (f (base_event c)))), None)
  | _ => (w, Some BadNodeIdUnknown)
  end.

(** Store the outcome of an operation that may fail. *)
Definition commit {A} (w : World) (n : UaNodeId) (wrap : A -> UaObject)
    (r : res (QUaServer * A)) : World * option StatusError :=
  match r with
  | Ok (srv', x') => (with_object w srv' n (wrap x'), None)
  | Err err => (w, Some err)
  end.

Definition exec (w : World) (op : Op) : World * option StatusError :=
  match op with
  | OpAddNode n =>
      if fresh_node w n then (with_server w (addNode (w_server w) n), None)
      else (w, Some BadNodeIdExists)
  | OpCreateEvent n tname orig => create w n (OBaseEvent (QUaBaseEvent_new n tname orig))
  | OpCreateAckCondition n orig =>
      create w n (OAckCondition (QUaAcknowledgeableCondition_new n orig))
  | OpCreateLimitMachine n => create w n (OLimitMachine QUaExclusiveLimitStateMachine_new)
  | OpRegisterType tname tid => (with_server w (registerType (w_server w) tname tid), None)
  | OpTick d => (with_server w (advanceClock (w_server w) d), None)
  | OpDelete n =>
      if decide (n ∈ srv_nodes (w_server w)) then
        ({| w_server := deleteNode (w_server w) n; w_objects := delete n (w_objects w) |}, None)
      else (w, Some BadNodeIdUnknown)
  | OpSetSourceName n s => update_event w n (fun e => setSourceName e s)
  | OpSetTime n t => update_event w n (fun e => setTime e t)
  | OpSetMessage n s => update_event w n (fun e => setMessage e s)
  | OpSetSeverity n v => update_event w n (fun e => setSeverity e v)
  | OpSetConfirmAllowed n b =>
      match w_objects w !! n with
      | Some (OAckCondition c) =>
          (with_object w (w_server w) n (OAckCondition (setConfirmAllowed c b)), None)
      | _ => (w, Some BadNodeIdUnknown)
      end
  | OpSetRetain n b =>
      match w_objects w !! n with
      | Some (OAckCondition c) =>
          (with_object w (w_server w) n (OAckCondition (ac_setRetain c b)), None)
      | _ => (w, Some BadNodeIdUnknown)
      end
  | OpTrigger n =>
      match w_objects w !! n with
      | Some (OBaseEvent e) => commit w n OBaseEvent (trigger (w_server w) e)
      | Some (OAckCondition c) => commit w n OAckCondition (triggerT (w_server w) c)
      | _ => (w, Some BadNodeIdUnknown)
      end
  | OpAcknowledge n eid cm =>
      match w_objects w !! n with
      | Some (OAckCondition c) => commit w n OAckCondition (Acknowledge (w_server w) c eid cm)
      | _ => (w, Some BadNodeIdUnknown)
      end
  | OpConfirm n eid cm =>
      match w_objects w !! n with
      | Some (OAckCondition c) => commit w n OAckCondition (Confirm (w_server w) c eid cm)
      | _ => (w, Some BadNodeIdUnknown)
      end
  | OpSetLimitState n t =>
      match w_objects w !! n with
      | Some (OLimitMachine sm) => (with_object w (w_server w) n (OLimitMachine (setState sm t)), None)
      | _ => (w, Some BadNodeIdUnknown)
      end
  end.

(** A run: the operations in order, with the status of each. *)
Fixpoint run (w : World) (ops : list Op) : World * list (option StatusError) :=
  match ops with
  | [] => (w, [])
  | op :: ops' =>
      let '(w1, st) := exec w op in
      let '(w2, sts) := run w1 ops' in
      (w2, st :: sts)
  end.

(** What a condition keeps across its notifications: its own state and
    its identity. *)
Definition cond_identity (c : QUaAcknowledgeableCondition) :=
  (Retain (ac_condition c), EnabledState (ac_condition c), m_confirmAllowed c,
   nodeId (base_event c), typeName (base_event c), m_nodeIdOriginator (base_event c)).

(** ** The server-wide invariant *)

Definition dispatched_ids (srv : QUaServer) : list (list Byte.byte) :=
  map en_EventId (srv_dispatched srv).

(** A stored event sits at its own node id, holds a quint16 severity, and
    its outstanding id is null or an id the runtime dispatched. *)
Definition event_wf (srv : QUaServer) (n : UaNodeId) (e : QUaBaseEvent) : Prop :=
  nodeId e = n /\ 0 <= Severity e < 2 ^ 16 /\
  (m_outEventId e = [] \/ m_outEventId e ∈ dispatched_ids srv).

Definition obj_wf (srv : QUaServer) (n : UaNodeId) (o : UaObject) : Prop :=
  match o with
  | OBaseEvent e => event_wf srv n e
  | OAckCondition c => event_wf srv n (base_event c) /\ ack_wf c
  | OLimitMachine sm => limit_wf sm
  end.

Definition severity_ok (ntf : EventNotification) : Prop := 0 <= en_Severity ntf < 2 ^ 16.

Definition world_wf (w : World) : Prop :=
  server_wf (w_server w) /\
  Forall severity_ok (srv_dispatched (w_server w)) /\
  map_Forall (obj_wf (w_server w)) (w_objects w).

(** The dispatch log of [srv'] extends that of [srv]. *)
Definition log_extends (srv srv' : QUaServer) : Prop :=
  exists l, srv_dispatched srv' = srv_dispatched srv ++ l.

(** ** Lemmas *)

Lemma log_extends_refl srv srv' :
  srv_dispatched srv' = srv_dispatched srv -> log_extends srv srv'.
Proof. intros H. exists []. by rewrite H, app_nil_r. Qed.

Lemma log_extends_trans s1 s2 s3 :
  log_extends s1 s2 -> log_extends s2 s3 -> log_extends s1 s3.
Proof. intros [l1 H1] [l2 H2]. exists (l1 ++ l2). by rewrite H2, H1, app_assoc. Qed.

Lemma obj_wf_mono srv srv' n o : log_extends srv srv' -> obj_wf srv n o -> obj_wf srv' n o.
Proof.
  intros [l Hl].
  assert (Hev : forall e, event_wf srv n e -> event_wf srv' n e).
  { intros e (H1 & H2 & H3). split; [done|]. split; [done|].
    destruct H3 as [H3|H3]; [by left|right].
    unfold dispatched_ids in *. rewrite Hl, map_app. by apply elem_of_app; left. }
  destruct o; simpl; [apply Hev| |done]. intros [? ?]; split; auto.
Qed.

(** Replacing the server by one that extends the log, and storing one
    well-formed object, keeps the world well-formed. *)
Lemma world_wf_store w srv' n o :
  world_wf w -> log_extends (w_server w) srv' -> server_wf srv' ->
  Forall severity_ok (srv_dispatched srv') -> obj_wf srv' n o ->
  world_wf (with_object w srv' n o).
Proof.
  intros (_ & _ & Hobj) Hext Hs Hsev Ho. split; [done|]. split; [done|].
  apply map_Forall_insert_2; [done|].
  eapply map_Forall_impl; [exact Hobj|]. intros. by eapply obj_wf_mono.
Qed.

Lemma world_wf_server w srv' :
  world_wf w -> srv_dispatched srv' = srv_dispatched (w_server w) -> server_wf srv' ->
  world_wf (with_server w srv').
Proof.
  intros (_ & Hsev & Hobj) Hd Hs. split; [done|]. split; [simpl; by rewrite Hd|].
  eapply map_Forall_impl; [exact Hobj|]. intros. eapply obj_wf_mono; [|done].
  by apply log_extends_refl.
Qed.

(** A trigger of a well-formed event extends the log with one notification
    of quint16 severity and leaves a well-formed event. *)
Lemma trigger_event_wf srv n e srv' e' :
  event_wf srv n e -> trigger srv e = Ok (srv', e') ->
  log_extends srv srv' /\ event_wf srv' n e' /\
  (Forall severity_ok (srv_dispatched srv) -> Forall severity_ok (srv_dispatched srv')).
Proof.
  intros (Hn & Hsev & _) Ht. apply trigger_dispatched in Ht as (Hd & Hs & Hnd & Hout & _).
  split; [by exists [notification_of e']|]. split.
  - split; [congruence|]. split; [congruence|]. right. unfold dispatched_ids.
    rewrite Hd, map_app, Hout. apply elem_of_app; right. by left.
  - intros Hf. rewrite Hd. apply Forall_app. split; [done|].
    apply Forall_singleton. unfold severity_ok. simpl. by rewrite Hs.
Qed.

Lemma setters_event_wf srv n e s t v :
  event_wf srv n e ->
  event_wf srv n (setSourceName e s) /\ event_wf srv n (setTime e t) /\
  event_wf srv n (setMessage e s) /\ event_wf srv n (setSeverity e v).
Proof.
  intros (H1 & H2 & H3). pose proof (quint16_of_Z_range v).
  repeat split; simpl; try tauto; lia.
Qed.

Lemma create_wf w n o :
  world_wf w -> obj_wf (addNode (w_server w) n) n o -> world_wf (create w n o).1.
Proof.
  intros Hw Ho. unfold create. destruct (fresh_node w n); [|done].
  apply world_wf_store; [done | by apply log_extends_refl | | apply Hw | done].
  by destruct (runtime_ops_wf (w_server w) n ""%string UA_NODEID_NULL (proj1 Hw)).
Qed.

Lemma update_event_wf w n f :
  world_wf w -> (forall e, event_wf (w_server w) n e -> event_wf (w_server w) n (f e)) ->
  world_wf (update_event w n f).1.
Proof.
  intros Hw Hf. pose proof Hw as (Hs & Hsev & Hobj). unfold update_event.
  destruct (w_objects w !! n) as [[e|c|sm]|] eqn:Hn; try done;
    (apply world_wf_store; [done|by apply log_extends_refl|done|done|]);
    apply (map_Forall_lookup_1 _ _ _ _ Hobj) in Hn; simpl in *.
  - by apply Hf.
  - destruct Hn as [He Hc]. split; [by apply Hf|done].
Qed.

Lemma commit_wf {A} w n (wrap : A -> UaObject) r :
  world_wf w ->
  (forall srv' x', r = Ok (srv', x') ->
     log_extends (w_server w) srv' /\ server_wf srv' /\
     Forall severity_ok (srv_dispatched srv') /\ obj_wf srv' n (wrap x')) ->
  world_wf (commit w n wrap r).1.
Proof.
  intros Hw H. destruct r as [[srv' x']|err]; simpl; [|done].
  destruct (H srv' x' eq_refl) as (? & ? & ? & ?). by apply world_wf_store.
Qed.

Lemma event_commit srv n e srv' e' :
  server_wf srv -> Forall severity_ok (srv_dispatched srv) -> event_wf srv n e ->
  trigger srv e = Ok (srv', e') ->
  log_extends srv srv' /\ server_wf srv' /\ Forall severity_ok (srv_dispatched srv') /\
  event_wf srv' n e'.
Proof.
  intros Hs Hsev He Ht. pose proof (trigger_wf _ _ _ _ Hs Ht).
  apply (trigger_event_wf _ _ _ _ _ He) in Ht as (? & ? & ?). auto.
Qed.

Lemma obj_at w n o : world_wf w -> w_objects w !! n = Some o -> obj_wf (w_server w) n o.
Proof. intros (_ & _ & Hobj) Hn. exact (map_Forall_lookup_1 _ _ _ _ Hobj Hn). Qed.

(** An update of a stored condition that leaves its event alone and
    keeps its flags consistent keeps the world well-formed. *)
Lemma ack_update_wf w n c c' :
  world_wf w -> w_objects w !! n = Some (OAckCondition c) ->
  base_event c' = base_event c -> (ack_wf c -> ack_wf c') ->
  world_wf (with_object w (w_server w) n (OAckCondition c')).
Proof.
  intros Hw Hn He Hc. apply (obj_at _ _ _ Hw) in Hn as [Hev Hwf].
  apply world_wf_store; [done|by apply log_extends_refl|apply Hw|apply Hw|].
  split; [by rewrite He|auto].
Qed.

(** A client method call on a stored condition keeps the world
    well-formed, whether it succeeds or fails. *)
Lemma method_wf w n c m eid cm :
  world_wf w -> w_objects w !! n = Some (OAckCondition c) ->
  world_wf (commit w n OAckCondition (callMethod m (w_server w) c eid cm)).1.
Proof.
  intros Hw Hn. pose proof Hw as (Hs & Hsev & _).
  apply (obj_at _ _ _ Hw) in Hn as [He Hc]. apply commit_wf; [done|]. intros srv' x' Ht.
  apply callMethod_trigger in Ht as (Hc' & _ & _ & Ht).
  destruct (event_commit _ _ _ _ _ Hs Hsev He Ht) as (? & ? & ? & ?).
  split; [done|]. split; [done|]. split; [done|]. by split.
Qed.

(** Every operation keeps the world well-formed. *)
Lemma exec_wf w op : world_wf w -> world_wf (exec w op).1.
Proof.
  intros Hw. pose proof Hw as (Hs & Hsev & Hobj).
  destruct op as [n|n tn orig|n orig|n|tn tid|d|n|n str|n t|n str|n v|n b|n b|n|n eid cm|n eid cm|n tgt];
    simpl.
  - destruct (fresh_node w n); [|done]. apply world_wf_server; [done|done|].
    by destruct (runtime_ops_wf (w_server w) n ""%string UA_NODEID_NULL Hs).
  - apply create_wf; [done|]. repeat split; simpl; try lia. by left.
  - apply create_wf; [done|]. split; [repeat split; simpl; try lia; by left|discriminate].
  - apply create_wf; [done|]. by intros tr.
  - apply world_wf_server; [done|done|].
    by destruct (runtime_ops_wf (w_server w) UA_NODEID_NULL tn tid Hs).
  - apply world_wf_server; [done|done|]. by apply advanceClock_wf.
  - case_decide; [|done]. split; [by destruct (runtime_ops_wf (w_server w) n ""%string UA_NODEID_NULL Hs)|].
    split; [done|]. apply map_Forall_delete. eapply map_Forall_impl; [exact Hobj|].
    intros. eapply obj_wf_mono; [|done]. by apply log_extends_refl.
  - apply update_event_wf; [done|]. intros e He.
    by destruct (setters_event_wf _ _ e str 0 0 He) as (? & ? & ? & ?).
  - apply update_event_wf; [done|]. intros e He.
    by destruct (setters_event_wf _ _ e ""%string t 0 He) as (? & ? & ? & ?).
  - apply update_event_wf; [done|]. intros e He.
    by destruct (setters_event_wf _ _ e str 0 0 He) as (? & ? & ? & ?).
  - apply update_event_wf; [done|]. intros e He.
    by destruct (setters_event_wf _ _ e ""%string 0 v He) as (? & ? & ? & ?).
  - destruct (w_objects w !! n) as [[e|c|sm]|] eqn:Hn; try done. by eapply ack_update_wf.
  - destruct (w_objects w !! n) as [[e|c|sm]|] eqn:Hn; try done. by eapply ack_update_wf.
  - destruct (w_objects w !! n) as [[e|c|sm]|] eqn:Hn; try done;
      apply (obj_at _ _ _ Hw) in Hn; apply commit_wf; try done; intros srv' x' Ht.
    + by apply (event_commit _ _ e).
    + destruct Hn as [He Hc]. pose proof (phase_triggerT _ _ _ _ Ht) as [_ Hc'].
      apply triggerT_Ok_inv in Ht as [Ht _].
      destruct (event_commit _ _ _ _ _ Hs Hsev He Ht) as (? & ? & ? & ?).
      split; [done|]. split; [done|]. split; [done|]. split; [done|by apply Hc'].
  - destruct (w_objects w !! n) as [[e|c|sm]|] eqn:Hn; try done.
    first [exact (method_wf w n c MAcknowledge eid cm Hw Hn) | exact (method_wf w n c MConfirm eid cm Hw Hn)].
  - destruct (w_objects w !! n) as [[e|c|sm]|] eqn:Hn; try done.
    first [exact (method_wf w n c MConfirm eid cm Hw Hn) | exact (method_wf w n c MAcknowledge eid cm Hw Hn)].
  - destruct (w_objects w !! n) as [[e|c|sm]|] eqn:Hn; try done.
    apply (obj_at _ _ _ Hw) in Hn.
    apply world_wf_store; [done|by apply log_extends_refl|done|done|]. by apply setState_wf.
Qed.

Lemma trigger_extends srv e srv' e' : trigger srv e = Ok (srv', e') -> log_extends srv srv'.
Proof. intros [Hd _]%trigger_dispatched. by exists [notification_of e']. Qed.

Lemma triggerT_extends {T} `{HasEvent T} srv (x : T) srv' x' :
  triggerT srv x = Ok (srv', x') -> log_extends srv srv'.
Proof. intros [Ht _]%triggerT_Ok_inv. by apply trigger_extends in Ht. Qed.

Lemma commit_extends {A} w n (wrap : A -> UaObject) r :
  (forall srv' x', r = Ok (srv', x') -> log_extends (w_server w) srv') ->
  log_extends (w_server w) (w_server (commit w n wrap r).1).
Proof. intros H. destruct r as [[srv' x']|err]; simpl; [by apply (H _ x')|by apply log_extends_refl]. Qed.

Lemma exec_extends w op : log_extends (w_server w) (w_server (exec w op).1).
Proof.
  destruct op; simpl; unfold create, update_event;
    repeat (case_match || case_decide); simpl; try (by apply log_extends_refl);
    apply commit_extends; intros srv' x' Ht;
    try (by eapply trigger_extends); try (by eapply triggerT_extends);
    first [apply (callMethod_triggerT MAcknowledge) in Ht | apply (callMethod_triggerT MConfirm) in Ht];
    destruct Ht as (? & Ht); by eapply triggerT_extends.
Qed.

Lemma run_cons w op ops : (run w (op :: ops)).1 = (run (exec w op).1 ops).1.
Proof. simpl. destruct (exec w op) as [w1 st]. simpl. by destruct (run w1 ops). Qed.

Lemma run_wf w ops : world_wf w -> world_wf (run w ops).1.
Proof.
  revert w. induction ops as [|op ops IH]; intros w Hw; [done|].
  rewrite run_cons. apply IH. by apply exec_wf.
Qed.

Lemma run_extends w ops : log_extends (w_server w) (w_server (run w ops).1).
Proof.
  revert w. induction ops as [|op ops IH]; intros w; [by apply log_extends_refl|].
  rewrite run_cons. eapply log_extends_trans; [apply exec_extends|apply IH].
Qed.

Lemma triggerT_identity srv c srv' c' :
  triggerT srv c = Ok (srv', c') -> cond_identity c' = cond_identity c.
Proof.
  intros Ht. pose proof (triggerT_ack_fields _ _ _ _ Ht) as (_ & _ & _ & Hca).
  apply triggerT_Ok_inv in Ht as [Ht ->]. apply trigger_Ok_inv in Ht as (_ & tid & _ & -> & _).
  destruct c as [[ev r en] ? ? ? ?]. reflexivity.
Qed.

Lemma exec_cond_Ok w n c op w' :
  w_objects w !! n = Some (OAckCondition c) ->
  op = OpTrigger n \/ (exists eid cm, op = OpAcknowledge n eid cm \/ op = OpConfirm n eid cm) ->
  exec w op = (w', None) ->
  exists c', w_objects w' !! n = Some (OAckCondition c') /\ cond_identity c' = cond_identity c.
Proof.
  intros Hn [->|(eid & cm & [-> | ->])] Hx; simpl in Hx; rewrite Hn in Hx; unfold commit in Hx;
    case_match eqn:Hr; simplify_eq; match type of Hr with _ = Ok ?p => destruct p as [s c'] end; simplify_eq;
    (exists c'; split; [cbn; by rewrite lookup_insert_eq|]).
  all: match type of Hr with
       | triggerT _ _ = _ => idtac
       | Acknowledge _ _ _ _ = _ => apply (callMethod_triggerT MAcknowledge) in Hr as (f & Hr)
       | Confirm _ _ _ _ = _ => apply (callMethod_triggerT MConfirm) in Hr as (f & Hr)
       end; by apply triggerT_identity in Hr.
Qed.

Lemma World_init_wf now : world_wf (World_init now).
Proof.
  split; [split; [reflexivity|split; [exact I|constructor]]|].
  split; [constructor|apply map_Forall_empty].
Qed.

(** ** Properties *)

(** C8. Every run of operations from a well-formed world ends in a
    well-formed world: the server invariant holds, every dispatched
    severity fits a quint16, every stored event sits at its node with a
    quint16 severity and an outstanding id that was dispatched, every
    acknowledgeable condition has consistent flags, every limit machine's
    last transition ends in its current state. *)
Theorem run_preserves_world_wf w ops : world_wf w -> world_wf (run w ops).1.
Proof.
  revert w. induction ops as [|op ops IH]; intros w Hw; [done|].
  rewrite run_cons. apply IH, exec_wf, Hw.
Qed.

(** C9. Over any run from a well-formed world in which at most 2^128
    events are triggered, the ids of all dispatched notifications are
    pairwise distinct. *)
Theorem run_event_ids_distinct w ops :
  world_wf w -> Z.of_nat (srv_eventCount (w_server (run w ops).1)) <= EVENTID_CAPACITY ->
  NoDup (dispatched_ids (w_server (run w ops).1)).
Proof.
  intros Hw Hcap. destruct (run_wf w ops Hw) as ([Hids _] & _). unfold dispatched_ids.
  rewrite Hids. by apply NoDup_issued.
Qed.

(** C10. Dispatch is first in, first out and time-ordered: a run only
    appends to the log of dispatched notifications, and along the log the
    receive times are non-decreasing and never ahead of the clock. *)
Theorem run_dispatch_order w ops :
  world_wf w ->
  log_extends (w_server w) (w_server (run w ops).1) /\
  nondecreasing (map en_ReceiveTime (srv_dispatched (w_server (run w ops).1))) /\
  Forall (fun t => t <= srv_clock (w_server (run w ops).1))
         (map en_ReceiveTime (srv_dispatched (w_server (run w ops).1))).
Proof.
  intros Hw. split; [apply run_extends|]. by destruct (run_wf w ops Hw) as ((_ & ? & ?) & _).
Qed.

(** The operation a client sends for a method. *)
Definition method_op (m : AckMethod) (n : UaNodeId) (eid : list Byte.byte) (cm : string) : Op :=
  match m with
  | MAcknowledge => OpAcknowledge n eid cm
  | MConfirm => OpConfirm n eid cm
  end.

(** C11. Progress of the acknowledgement workflow: a triggered condition
    that is stored at an attached node, unacknowledged and allowed to be
    confirmed, is always brought to Confirmed by Acknowledge with its
    outstanding id followed by Confirm with the id of the acknowledgement's
    notification; both calls succeed. *)
Theorem acknowledge_confirm_progress w n c cm1 cm2 :
  world_wf w -> w_objects w !! n = Some (OAckCondition c) -> n ∈ srv_nodes (w_server w) ->
  is_Some (srv_types (w_server w) !! typeName (base_event c)) ->
  phase c = Unacknowledged -> m_confirmAllowed c = true -> m_outEventId (base_event c) <> [] ->
  exists w' c',
    run w [OpAcknowledge n (m_outEventId (base_event c)) cm1;
           OpConfirm n (eventId_of (srv_eventCount (w_server w))) cm2] = (w', [None; None]) /\
    w_objects w' !! n = Some (OAckCondition c') /\ phase c' = Confirmed.
Proof.
  intros Hw Hn Hnode [tid Ht] Hph Hal Hout.
  (* a call the machine allows on a stored, attached condition with the
     outstanding id succeeds and stores the recorded, triggered condition *)
  assert (exec_method_Ok : forall x k a m eid cm p,
    world_wf x -> w_objects x !! k = Some (OAckCondition a) -> k ∈ srv_nodes (w_server x) ->
    srv_types (w_server x) !! typeName (base_event a) = Some tid ->
    eventId_matches a eid = true -> ack_step (m_confirmAllowed a) (phase a) m p ->
    exec x (method_op m k eid cm) =
      (with_object x (dispatch (w_server x) (triggered (w_server x) (base_event a) tid)) k
         (OAckCondition (with_event (record_action a (flags_of_phase p).1 (flags_of_phase p).2 cm)
                                    (triggered (w_server x) (base_event a) tid))), None)).
  { intros x k a m eid cm p Hx Hk Hknode Hkt Hid Hs.
    pose proof (obj_at _ _ _ Hx Hk) as [[Hnid _] Hwf].
    assert (Hk' : nodeId (base_event a) ∈ srv_nodes (w_server x)) by (by rewrite Hnid).
    pose proof (callMethod_attached m _ a eid cm tid p Hwf Hid Hk' Hkt Hs) as H.
    destruct m; simpl in *; rewrite Hk; simpl; try rewrite H; reflexivity. }
  assert (Hs1 : ack_step (m_confirmAllowed c) (phase c) MAcknowledge Acknowledged)
    by (rewrite Hph; constructor).
  pose proof (exec_method_Ok w n c MAcknowledge _ cm1 _ Hw Hn Hnode Ht
                (eventId_matches_outstanding c Hout) Hs1) as E1.
  pose proof (exec_wf w (method_op MAcknowledge n (m_outEventId (base_event c)) cm1) Hw) as Hw1.
  rewrite E1 in Hw1. cbn [fst] in Hw1.
  set (w1 := with_object _ _ _ _) in E1, Hw1.
  set (c1 := with_event _ _) in w1.
  assert (Hs2 : ack_step (m_confirmAllowed c1) (phase c1) MConfirm Confirmed)
    by (subst c1; simpl; rewrite Hal; by constructor).
  pose proof (exec_method_Ok w1 n c1 MConfirm (eventId_of (srv_eventCount (w_server w))) cm2
                _ Hw1 ltac:(by apply lookup_insert_eq) Hnode Ht
                (eventId_matches_outstanding c1 (eventId_of_nonempty _)) Hs2) as E2.
  change [OpAcknowledge n (m_outEventId (base_event c)) cm1;
          OpConfirm n (eventId_of (srv_eventCount (w_server w))) cm2]
    with [method_op MAcknowledge n (m_outEventId (base_event c)) cm1;
          method_op MConfirm n (eventId_of (srv_eventCount (w_server w))) cm2].
  cbn [run]. rewrite E1. cbn [run]. rewrite E2. cbn beta iota.
  eexists _, _. split; [reflexivity|]. split; [by apply lookup_insert_eq|]. reflexivity.
Qed.

(** C12. Deleting the node an event reports on is seen by the event's
    next notification: once the originator is deleted, a successful
    trigger of the event dispatches a notification whose SourceNode is
    null (spec 4.1: null when the event is not tied to a node). *)
Theorem trigger_after_originator_deleted w n e w2 :
  w_objects w !! n = Some (OBaseEvent e) -> m_nodeIdOriginator e <> n ->
  exec (exec w (OpDelete (m_nodeIdOriginator e))).1 (OpTrigger n) = (w2, None) ->
  exists ntf, last (srv_dispatched (w_server w2)) = Some ntf /\ en_SourceNode ntf = UA_NODEID_NULL.
Proof.
  intros Hn Hne.
  assert (Hw1 : (m_nodeIdOriginator e ∉ srv_nodes (w_server (exec w (OpDelete (m_nodeIdOriginator e))).1))
                /\ w_objects (exec w (OpDelete (m_nodeIdOriginator e))).1 !! n = Some (OBaseEvent e)).
  { simpl. case_decide; simpl; [|done]. split; [set_solver|]. by rewrite lookup_delete_ne. }
  destruct Hw1 as [Hg Hl]. revert Hg Hl.
  generalize (exec w (OpDelete (m_nodeIdOriginator e))).1 as w1. intros w1 Hg Hl H. simpl in H. rewrite Hl in H. unfold commit in H.
  destruct (trigger (w_server w1) e) as [[srv' e']|err] eqn:Ht; [|discriminate].
  injection H as <-. simpl. apply trigger_Ok_inv in Ht as (_ & tid & _ & -> & ->).
  unfold dispatch. simpl. rewrite last_snoc. eexists. split; [reflexivity|].
  simpl. unfold resolveSourceNode. by rewrite decide_False.
Qed.

(** C13. A condition persists across its notifications (spec 3): a
    successful trigger, Acknowledge or Confirm on a stored condition
    leaves it at its node with the same retain flag, enable state,
    confirm guard, node id, class and originator. *)
Theorem condition_state_persists w n c op w' :
  w_objects w !! n = Some (OAckCondition c) ->
  op = OpTrigger n \/ (exists eid cm, op = OpAcknowledge n eid cm \/ op = OpConfirm n eid cm) ->
  exec w op = (w', None) ->
  exists c', w_objects w' !! n = Some (OAckCondition c') /\
    Retain (ac_condition c') = Retain (ac_condition c) /\
    EnabledState (ac_condition c') = EnabledState (ac_condition c) /\
    m_confirmAllowed c' = m_confirmAllowed c /\
    nodeId (base_event c') = nodeId (base_event c) /\
    typeName (base_event c') = typeName (base_event c) /\
    m_nodeIdOriginator (base_event c') = m_nodeIdOriginator (base_event c).
Proof.
  intros Hn Hop Hx. destruct (exec_cond_Ok _ _ _ _ _ Hn Hop Hx) as (c' & Hl & Hid).
  unfold cond_identity in Hid. simplify_eq. by exists c'.
Qed.

(** C16. A node id reused by a new condition does not revive the old
    instance: after the condition's node is deleted and a new condition
    is created there, Acknowledge and Confirm fail with InvalidEventId
    for every id, the old outstanding id included, and change nothing
    (the new instance has no outstanding notification). *)
Theorem recreated_condition_rejects_old_ids w n orig w1 w2 eid cm :
  exec w (OpDelete n) = (w1, None) -> exec w1 (OpCreateAckCondition n orig) = (w2, None) ->
  exec w2 (OpAcknowledge n eid cm) = (w2, Some InvalidEventId) /\
  exec w2 (OpConfirm n eid cm) = (w2, Some InvalidEventId).
Proof.
  simpl. case_decide; [intros [= <-]|discriminate]. unfold create.
  case_match; [intros [= <-]|discriminate]. simpl. by rewrite lookup_insert_eq.
Qed.

(** ** The scenario of spec section 8 *)

Definition tank : UaNodeId := UA_NODEID_STRING 1 "TankLevel".
Definition tankAlarm : UaNodeId := UA_NODEID_STRING 1 "TankLevelAlarm".

(** A condition on the tank level with severity 500 is triggered,
    acknowledged and confirmed; the rejected calls of section 8 are
    interleaved (Confirm before any notification, Confirm before
    Acknowledge, a second Acknowledge, Confirm with the guard off). *)
Definition scenario_ops : list Op :=
  [OpRegisterType "QUaAcknowledgeableCondition" (UA_NODEID_NUMERIC 0 2881);
   OpAddNode tank;
   OpCreateAckCondition tankAlarm tank;
   OpSetSeverity tankAlarm 500;
   OpSetSourceName tankAlarm "TankLevel";
   OpSetMessage tankAlarm "High level";
   OpConfirm tankAlarm (eventId_of 0) "too early";
   OpTick 10;
   OpTrigger tankAlarm;
   OpConfirm tankAlarm (eventId_of 0) "too early";
   OpAcknowledge tankAlarm (eventId_of 0) "ack by operator";
   OpAcknowledge tankAlarm (eventId_of 1) "again";
   OpSetConfirmAllowed tankAlarm false;
   OpConfirm tankAlarm (eventId_of 1) "confirm";
   OpSetConfirmAllowed tankAlarm true;
   OpTick 5;
   OpConfirm tankAlarm (eventId_of 1) "confirm"]%string.

(** ** Witnesses *)

Lemma run_preserves_world_wf_witness : world_wf (run (World_init 1000) scenario_ops).1.
Proof.
  apply run_preserves_world_wf.
  split; [split; [reflexivity|split; [exact I|constructor]]|].
  split; [constructor|]. intros k x Hk. vm_compute in Hk. discriminate.
Defined.

Lemma run_event_ids_distinct_witness :
  NoDup (dispatched_ids (w_server (run (World_init 1000) scenario_ops).1)).
Proof.
  apply run_event_ids_distinct.
  - split; [split; [reflexivity|split; [exact I|constructor]]|].
    split; [constructor|]. intros k x Hk. vm_compute in Hk. discriminate.
  - apply Z.leb_le. vm_compute. reflexivity.
Defined.

Lemma run_dispatch_order_witness :
  log_extends (w_server (World_init 1000)) (w_server (run (World_init 1000) scenario_ops).1) /\
  nondecreasing (map en_ReceiveTime (srv_dispatched (w_server (run (World_init 1000) scenario_ops).1))) /\
  Forall (fun t => t <= srv_clock (w_server (run (World_init 1000) scenario_ops).1))
         (map en_ReceiveTime (srv_dispatched (w_server (run (World_init 1000) scenario_ops).1))).
Proof.
  apply run_dispatch_order.
  split; [split; [reflexivity|split; [exact I|constructor]]|].
  split; [constructor|]. intros k x Hk. vm_compute in Hk. discriminate.
Defined.

(** The world after the scenario's trigger, and its stored condition. *)
Definition ex_w_triggered : World := (run (World_init 1000) (firstn 9 scenario_ops)).1.

Definition ex_alarm : QUaAcknowledgeableCondition :=
  match w_objects ex_w_triggered !! tankAlarm with
  | Some (OAckCondition c) => c
  | _ => QUaAcknowledgeableCondition_new tankAlarm tank
  end.

Lemma acknowledge_confirm_progress_witness :
  exists w' c',
    run ex_w_triggered [OpAcknowledge tankAlarm (m_outEventId (base_event ex_alarm)) "ack";
                        OpConfirm tankAlarm (eventId_of (srv_eventCount (w_server ex_w_triggered))) "ok"]
      = (w', [None; None]) /\
    w_objects w' !! tankAlarm = Some (OAckCondition c') /\ phase c' = Confirmed.
Proof.
  apply acknowledge_confirm_progress.
  - apply run_wf, World_init_wf.
  - vm_compute. reflexivity.
  - apply (bool_decide_unpack _). vm_compute. exact I.
  - vm_compute. eexists. reflexivity.
  - vm_compute. reflexivity.
  - vm_compute. reflexivity.
  - vm_compute. discriminate.
Defined.

(** An event on the tank, whose originator is then deleted. *)
Definition ex_w_event : World :=
  (run (World_init 1000) [OpRegisterType "QUaBaseEvent" (UA_NODEID_NUMERIC 0 2041);
                          OpAddNode tank;
                          OpCreateEvent tankAlarm "QUaBaseEvent" tank]%string).1.

Definition ex_event_stored : QUaBaseEvent :=
  match w_objects ex_w_event !! tankAlarm with
  | Some (OBaseEvent e) => e
  | _ => QUaBaseEvent_new tankAlarm "QUaBaseEvent" tank
  end.

Lemma trigger_after_originator_deleted_witness :
  exists ntf, last (srv_dispatched (w_server
    (exec (exec ex_w_event (OpDelete (m_nodeIdOriginator ex_event_stored))).1 (OpTrigger tankAlarm)).1))
      = Some ntf /\ en_SourceNode ntf = UA_NODEID_NULL.
Proof.
  apply (trigger_after_originator_deleted ex_w_event tankAlarm ex_event_stored).
  - vm_compute. reflexivity.
  - vm_compute. discriminate.
  - vm_compute. reflexivity.
Defined.

Lemma condition_state_persists_witness :
  exists c', w_objects (exec ex_w_triggered
                (OpAcknowledge tankAlarm (m_outEventId (base_event ex_alarm)) "ack")).1 !! tankAlarm
             = Some (OAckCondition c') /\
    Retain (ac_condition c') = Retain (ac_condition ex_alarm) /\
    EnabledState (ac_condition c') = EnabledState (ac_condition ex_alarm) /\
    m_confirmAllowed c' = m_confirmAllowed ex_alarm /\
    nodeId (base_event c') = nodeId (base_event ex_alarm) /\
    typeName (base_event c') = typeName (base_event ex_alarm) /\
    m_nodeIdOriginator (base_event c') = m_nodeIdOriginator (base_event ex_alarm).
Proof.
  apply (condition_state_persists ex_w_triggered tankAlarm ex_alarm
           (OpAcknowledge tankAlarm (m_outEventId (base_event ex_alarm)) "ack")).
  - vm_compute. reflexivity.
  - right. eexists _, _. left. reflexivity.
  - vm_compute. reflexivity.
Defined.

Lemma recreated_condition_rejects_old_ids_witness :
  exec (exec (exec ex_w_triggered (OpDelete tankAlarm)).1 (OpCreateAckCondition tankAlarm tank)).1
       (OpAcknowledge tankAlarm (m_outEventId (base_event ex_alarm)) "ack") =
    ((exec (exec ex_w_triggered (OpDelete tankAlarm)).1 (OpCreateAckCondition tankAlarm tank)).1,
     Some InvalidEventId) /\
  exec (exec (exec ex_w_triggered (OpDelete tankAlarm)).1 (OpCreateAckCondition tankAlarm tank)).1
       (OpConfirm tankAlarm (m_outEventId (base_event ex_alarm)) "ack") =
    ((exec (exec ex_w_triggered (OpDelete tankAlarm)).1 (OpCreateAckCondition tankAlarm tank)).1,
     Some InvalidEventId).
Proof.
  apply (recreated_condition_rejects_old_ids ex_w_triggered tankAlarm tank
           (exec ex_w_triggered (OpDelete tankAlarm)).1).
  - vm_compute. reflexivity.
  - vm_compute. reflexivity.
Defined.

End System.
