(* ===== verification/Lifecycle.v ===== *)
(** * The life of one instance across the server's operations

    Spec section 3 says an EventRecord is re-triggered in place, not
    re-allocated per notification; section 4.1 makes [trigger()] the
    only notification point; section 8 asks that the receive times of
    successive triggers of one instance do not decrease.  This file
    follows one stored object of [System.World] through [exec]:
    [obj_event] is the event part of a stored object, [stamped] says a
    triggered event's receive time is not ahead of the clock, and
    [stamp_wf] is that invariant over the node store, preserved by every
    operation ([exec_stamp_wf]).  Theorems: re-triggering an instance
    of a reachable world gives it a receive time not earlier than before
    and a fresh outstanding id; the log grows by one notification per
    successful trigger or method call ([notifies]). *)

From S2P Require Import Prelude BaseEvent Condition AcknowledgeableCondition ExclusiveLimitStateMachine System.

Module Lifecycle.
Import BaseEvent Condition AckCond ExclusiveLimit System.

(** ** Data *)

(** The event part of a stored object. *)
Definition obj_event (o : UaObject) : option QUaBaseEvent :=
  match o with
  | OBaseEvent e => Some e
  | OAckCondition c => Some (base_event c)
  | OLimitMachine _ => None
  end.

(** A triggered event carries a receive time not ahead of [clock]. *)
Definition stamped (clock : UtcTime) (e : QUaBaseEvent) : Prop :=
  m_outEventId e = [] \/ ReceiveTime e <= clock.

Definition stamp_wf (w : World) : Prop :=
  map_Forall (fun _ o => forall e, obj_event o = Some e -> stamped (srv_clock (w_server w)) e)
             (w_objects w).

(** The operations that notify when they succeed. *)
Definition notifies (op : Op) : bool :=
  match op with OpTrigger _ | OpAcknowledge _ _ _ | OpConfirm _ _ _ => true | _ => false end.

(** ** Lemmas *)

Lemma trigger_stamp srv e srv' e' :
  trigger srv e = Ok (srv', e') -> srv_clock srv' = srv_clock srv /\ stamped (srv_clock srv) e'.
Proof. intros (_ & tid & _ & -> & ->)%trigger_Ok_inv. split; [done|]. right. simpl. lia. Qed.

Lemma stamp_store w srv' n o :
  stamp_wf w -> srv_clock (w_server w) <= srv_clock srv' ->
  (forall e, obj_event o = Some e -> stamped (srv_clock srv') e) ->
  stamp_wf (with_object w srv' n o).
Proof.
  intros Hw Hc Ho. apply map_Forall_insert_2; [done|].
  eapply map_Forall_impl; [exact Hw|]. intros k o' H e He.
  destruct (H e He); [by left|right; simpl; lia].
Qed.

Lemma stamp_server w srv' :
  stamp_wf w -> srv_clock (w_server w) <= srv_clock srv' -> stamp_wf (with_server w srv').
Proof.
  intros Hw Hc. eapply map_Forall_impl; [exact Hw|]. intros k o' H e He.
  destruct (H e He); [by left|right; simpl; lia].
Qed.

Lemma stamp_update w n o o' :
  stamp_wf w -> w_objects w !! n = Some o ->
  (forall e', obj_event o' = Some e' -> exists e, obj_event o = Some e /\
     m_outEventId e' = m_outEventId e /\ ReceiveTime e' = ReceiveTime e) ->
  stamp_wf (with_object w (w_server w) n o').
Proof.
  intros Hw Hn Ho. apply stamp_store; [done|lia|]. intros e' He'.
  destruct (Ho e' He') as (e & He & H1 & H2). unfold stamped. rewrite H1, H2.
  exact (Hw n o Hn e He).
Qed.

Lemma stamp_trigger w n o srv' e e' :
  stamp_wf w -> trigger (w_server w) e = Ok (srv', e') ->
  (forall x, obj_event o = Some x -> x = e') -> stamp_wf (with_object w srv' n o).
Proof.
  intros Hw Ht Ho. destruct (trigger_stamp _ _ _ _ Ht) as [Hc Hs].
  apply stamp_store; [done|lia|]. intros x Hx. by rewrite (Ho x Hx), Hc.
Qed.

Lemma exec_stamp_wf w op : stamp_wf w -> stamp_wf (exec w op).1.
Proof.
  intros Hw.
  destruct op; simpl; unfold create, update_event, commit;
    repeat (case_match || case_decide); simplify_eq/=; try done.
  all: try match goal with
       | H : triggerT _ _ = Ok _ |- _ => apply triggerT_Ok_inv in H as [H _]
       | H : Acknowledge _ _ _ _ = Ok _ |- _ =>
           apply (callMethod_triggerT MAcknowledge) in H as (? & [H _]%triggerT_Ok_inv)
       | H : Confirm _ _ _ _ = Ok _ |- _ =>
           apply (callMethod_triggerT MConfirm) in H as (? & [H _]%triggerT_Ok_inv)
       end.
  all: try (eapply stamp_trigger; [done|eassumption|by intros ? [= <-]]).
  all: try (apply stamp_store; [done|simpl; lia|intros ? [= <-]; by left]).
  all: try (eapply stamp_update; [done|eassumption|intros ? [= <-]; eexists; by split]).
  - apply stamp_server; [done|]. simpl. lia.
  - by apply map_Forall_delete.
Qed.

Lemma run_stamp_wf w ops : stamp_wf w -> stamp_wf (run w ops).1.
Proof.
  revert w; induction ops as [|op ops IH]; intros w Hw; [by destruct w|].
  rewrite run_cons. by apply IH, exec_stamp_wf.
Qed.

Lemma obj_event_wf srv n o e : obj_wf srv n o -> obj_event o = Some e -> event_wf srv n e.
Proof. destruct o; simpl; intros Ho He; simplify_eq; [done|apply Ho]. Qed.

Lemma stamp_wf_init now : stamp_wf (World_init now).
Proof. apply map_Forall_empty. Qed.

Lemma exec_trigger_Ok w n w' :
  exec w (OpTrigger n) = (w', None) ->
  exists o e o' e', w_objects w !! n = Some o /\ obj_event o = Some e /\
    trigger (w_server w) e = Ok (w_server w', e') /\
    w_objects w' !! n = Some o' /\ obj_event o' = Some e'.
Proof.
  simpl. destruct (w_objects w !! n) as [[e|c|sm]|] eqn:Hn; try discriminate; unfold commit.
  - destruct (trigger _ e) as [[s e']|] eqn:Ht; [|discriminate]. intros [= <-].
    exists (OBaseEvent e), e, (OBaseEvent e'), e'. cbn [with_object w_objects w_server].
    by rewrite lookup_insert_eq.
  - destruct (triggerT _ c) as [[s c']|] eqn:Ht; [|discriminate]. intros [= <-].
    apply triggerT_Ok_inv in Ht as [Ht _].
    exists (OAckCondition c), (base_event c), (OAckCondition c'), (base_event c').
    cbn [with_object w_objects w_server]. by rewrite lookup_insert_eq.
Qed.

(** One operation adds one notification when it is a trigger or a
    method call and succeeds, none otherwise. *)
Lemma exec_notifications w op :
  length (srv_dispatched (w_server (exec w op).1)) =
    (length (srv_dispatched (w_server w)) +
     if notifies op && bool_decide ((exec w op).2 = None) then 1 else 0)%nat.
Proof.
  destruct op; simpl; unfold create, update_event, commit;
    repeat (case_match || case_decide); simplify_eq/=; try lia.
  all: try match goal with
       | H : triggerT _ _ = Ok _ |- _ => apply triggerT_Ok_inv in H as [H _]
       | H : Acknowledge _ _ _ _ = Ok _ |- _ =>
           apply (callMethod_triggerT MAcknowledge) in H as (? & [H _]%triggerT_Ok_inv)
       | H : Confirm _ _ _ _ = Ok _ |- _ =>
           apply (callMethod_triggerT MConfirm) in H as (? & [H _]%triggerT_Ok_inv)
       end.
  all: match goal with H : trigger _ _ = Ok _ |- _ =>
         apply trigger_dispatched in H as [Hd _]; rewrite Hd end.
  all: rewrite length_app; simpl; lia.
Qed.

(** ** Properties *)

(** C14. Re-triggering an instance in place (spec 3, 8): in any world
    reached from the initial one, a successful trigger of a stored event
    or condition that was triggered before gives it a receive time not
    earlier than its previous one and an outstanding id different from
    the previous one (below the generator's capacity), and its
    notification is the last one dispatched. *)
Theorem retrigger_monotone now ops n o e w' :
  Z.of_nat (srv_eventCount (w_server (run (World_init now) ops).1)) < EVENTID_CAPACITY ->
  w_objects (run (World_init now) ops).1 !! n = Some o -> obj_event o = Some e ->
  m_outEventId e <> [] ->
  exec (run (World_init now) ops).1 (OpTrigger n) = (w', None) ->
  exists o' e', w_objects w' !! n = Some o' /\ obj_event o' = Some e' /\
    ReceiveTime e <= ReceiveTime e' /\ m_outEventId e' <> m_outEventId e /\
    last (srv_dispatched (w_server w')) = Some (notification_of e').
Proof.
  set (w := (run (World_init now) ops).1). intros Hcap Hn He Hout Hx.
  assert (Hwf : world_wf w) by apply run_wf, World_init_wf.
  assert (Hst : stamp_wf w) by apply run_stamp_wf, stamp_wf_init.
  apply exec_trigger_Ok in Hx as (o0 & e0 & o' & e' & Hn0 & He0 & Ht & Hn' & He').
  rewrite Hn in Hn0. injection Hn0 as <-. rewrite He in He0. injection He0 as <-.
  exists o', e'. split; [done|]. split; [done|].
  destruct (Hst n o Hn e He) as [?|Hle]; [done|].
  destruct (obj_event_wf _ _ _ _ (obj_at _ _ _ Hwf Hn) He) as (_ & _ & [?|Hin]); [done|].
  pose proof (trigger_dispatched _ _ _ _ Ht) as (Hd & _ & _ & Hid & Hrt).
  split; [lia|]. split; [|by rewrite Hd, last_snoc].
  apply trigger_Ok_inv in Ht as (_ & tid & _ & -> & _). simpl.
  intros Heq. destruct Hwf as ((Hids & _) & _). unfold dispatched_ids in Hin.
  rewrite Hids, <- Heq in Hin. by apply (eventId_of_fresh _ Hcap).
Qed.

(** C15. One notification per successful call (spec 2, 4.2): over any
    run, the dispatch log grows by exactly the number of operations that
    are a trigger, an Acknowledge or a Confirm and succeed; failed calls
    and all other operations add nothing. *)
Theorem notifications_per_successful_call w ops :
  length (srv_dispatched (w_server (run w ops).1)) =
    (length (srv_dispatched (w_server w)) +
     length (filter (fun p => notifies p.1 = true /\ p.2 = None) (zip ops (run w ops).2)))%nat.
Proof.
  revert w; induction ops as [|op ops IH]; intros w; simpl; [by destruct w; simpl; lia|].
  pose proof (exec_notifications w op) as Hx.
  destruct (exec w op) as [w1 st]. simpl in *. specialize (IH w1).
  destruct (run w1 ops) as [w2 sts] eqn:E. simpl in *. rewrite filter_cons. simpl.
  destruct (notifies op), st; simpl in *; lia.
Qed.

(** ** Witnesses *)

Lemma retrigger_monotone_witness :
  exists o' e',
    w_objects (exec ex_w_triggered (OpTrigger tankAlarm)).1 !! tankAlarm = Some o' /\
    obj_event o' = Some e' /\
    ReceiveTime (base_event ex_alarm) <= ReceiveTime e' /\
    m_outEventId e' <> m_outEventId (base_event ex_alarm) /\
    last (srv_dispatched (w_server (exec ex_w_triggered (OpTrigger tankAlarm)).1))
      = Some (notification_of e').
Proof.
  apply (retrigger_monotone 1000 (firstn 9 scenario_ops) tankAlarm (OAckCondition ex_alarm)).
  - vm_compute. reflexivity.
  - vm_compute. reflexivity.
  - reflexivity.
  - vm_compute. discriminate.
  - vm_compute. reflexivity.
Defined.

End Lifecycle.
