(* ===== verification/Refinement.v ===== *)
(** * The server refines the guarded acknowledgement machine

    Spec section 4.2 gives the acknowledgement workflow as a machine whose
    Confirm transition is guarded by [confirmAllowed]; [AckCond] models
    it as the inductive [ack_step allowed] and proves that one method
    call on a condition is one of its steps.  This file lifts that to the
    server, in the way a projection of transition systems is stated
    (label_project in the VLSM development): the abstract state of the
    condition stored at a node is its guard and its phase
    ([abs_state]); the abstract machine [cond_step] moves the phase by
    [ack_step] under the current guard, or sets the guard; every
    operation projects to a label of that machine or to none
    ([label_project]).  The refinement theorem says, for any world
    reached from the initial one and any operation other than the
    deletion of the node: an operation with a label that succeeds is a
    step of the abstract machine with that label, and every other
    operation (unlabelled, or failed) leaves the abstract state as it
    was.  [attached] is the invariant that every stored object sits at a
    node of the server, so that no creation replaces a stored condition. *)

From S2P Require Import Prelude BaseEvent Condition AcknowledgeableCondition ExclusiveLimitStateMachine System.

Module Refinement.
Import BaseEvent Condition AckCond ExclusiveLimit System.

(** ** Data *)

(** Every stored object sits at a node of the server. *)
Definition attached (w : World) : Prop :=
  forall n o, w_objects w !! n = Some o -> n ∈ srv_nodes (w_server w).

(** The abstract state of a condition: the confirm guard and the phase. *)
Definition abs_state (c : QUaAcknowledgeableCondition) : bool * AckPhase :=
  (m_confirmAllowed c, phase c).

(** The labels of the abstract machine: a client method, or the owner
    setting the guard. *)
Inductive AbsLabel := LMethod (m : AckMethod) | LGuard (b : bool).

(** The machine of spec 4.2 with its guard in the state: a method moves
    the phase by [ack_step] under the current guard; [setConfirmAllowed]
    sets the guard and keeps the phase. *)
Inductive cond_step : bool * AckPhase -> AbsLabel -> bool * AckPhase -> Prop :=
| cond_step_method a p m p' : ack_step a p m p' -> cond_step (a, p) (LMethod m) (a, p')
| cond_step_guard a b p : cond_step (a, p) (LGuard b) (b, p).

(** The label an operation has on the condition at [n], if any. *)
Definition label_project (n : UaNodeId) (op : Op) : option AbsLabel :=
  match op with
  | OpAcknowledge k _ _ => if decide (k = n) then Some (LMethod MAcknowledge) else None
  | OpConfirm k _ _ => if decide (k = n) then Some (LMethod MConfirm) else None
  | OpSetConfirmAllowed k b => if decide (k = n) then Some (LGuard b) else None
  | _ => None
  end.

(** ** Lemmas *)

Lemma trigger_nodes srv e srv' e' : trigger srv e = Ok (srv', e') -> srv_nodes srv' = srv_nodes srv.
Proof. by intros (_ & tid & _ & -> & ->)%trigger_Ok_inv. Qed.

Lemma attached_store w srv' n o :
  attached w -> srv_nodes (w_server w) ⊆ srv_nodes srv' -> n ∈ srv_nodes srv' ->
  attached (with_object w srv' n o).
Proof.
  intros Hatt Hsub Hn k o' Hk. simpl in Hk. apply lookup_insert_Some in Hk as [[<- _]|[_ Hk]]; [done|].
  apply Hsub. by eapply Hatt.
Qed.

Lemma exec_attached w op : attached w -> attached (exec w op).1.
Proof.
  intros Hatt.
  destruct op; simpl; unfold create, update_event, commit, fresh_node;
    repeat (case_match || case_decide); simplify_eq/=; try done.
  all: try match goal with
       | H : triggerT _ _ = Ok _ |- _ => apply triggerT_Ok_inv in H as [H _]
       | H : Acknowledge _ _ _ _ = Ok _ |- _ =>
           apply (callMethod_triggerT MAcknowledge) in H as (? & [H _]%triggerT_Ok_inv)
       | H : Confirm _ _ _ _ = Ok _ |- _ =>
           apply (callMethod_triggerT MConfirm) in H as (? & [H _]%triggerT_Ok_inv)
       end.
  all: try match goal with H : trigger _ _ = Ok _ |- _ => pose proof (trigger_nodes _ _ _ _ H) end.
  all: try (apply attached_store; [done| simpl; set_solver | simpl; first [set_solver | eapply Hatt; eassumption]]).
  - intros k o Hk. simpl. apply elem_of_union_r. by eapply Hatt.
  - intros k o Hk. simpl in *. apply lookup_delete_Some in Hk as [? Hk].
    apply elem_of_difference. split; [by eapply Hatt|set_solver].
Qed.

Lemma run_attached w ops : attached w -> attached (run w ops).1.
Proof.
  revert w; induction ops as [|op ops IH]; intros w Hw; [by destruct w|].
  rewrite run_cons. by apply IH, exec_attached.
Qed.

Lemma attached_init now : attached (World_init now).
Proof. intros k o Hk. simpl in Hk. by rewrite lookup_empty in Hk. Qed.


(** [trigger] leaves the abstract state of a condition as it was. *)
Lemma triggerT_abs_state srv c srv' c' :
  triggerT srv c = Ok (srv', c') -> abs_state c' = abs_state c.
Proof.
  intros Ht. unfold abs_state. rewrite (proj1 (phase_triggerT _ _ _ _ Ht)).
  by rewrite (proj2 (proj2 (proj2 (triggerT_ack_fields _ _ _ _ Ht)))).
Qed.

(** ** Property *)

(** C17. The server refines the guarded acknowledgement machine of spec
    4.2: in any world reached from the initial one, an operation other
    than the deletion of a stored condition's node keeps the condition
    stored; if the operation has a label on it and succeeds, the
    condition's guard and phase take a step of [cond_step] with that
    label (Acknowledge, Confirm under the current guard, or setting the
    guard); otherwise they are unchanged. *)
Theorem condition_refines_guarded_machine now ops n c op :
  w_objects (run (World_init now) ops).1 !! n = Some (OAckCondition c) -> op <> OpDelete n ->
  exists c', w_objects (exec (run (World_init now) ops).1 op).1 !! n = Some (OAckCondition c') /\
    match label_project n op, (exec (run (World_init now) ops).1 op).2 with
    | Some l, None => cond_step (abs_state c) l (abs_state c')
    | _, _ => abs_state c' = abs_state c
    end.
Proof.
  set (w := (run (World_init now) ops).1). intros Hn Hne.
  assert (Hwf : world_wf w) by apply run_wf, World_init_wf.
  assert (Hatt : attached w) by apply run_attached, attached_init.
  pose proof (obj_at _ _ _ Hwf Hn) as [_ Hack]. pose proof (Hatt n _ Hn) as Hnode.
  clearbody w.
  (* A successful method call on a condition with consistent flags is a
     step of the guarded machine with the method's label. *)
  assert (Hcall : forall m srv c0 id cm srv' c',
    ack_wf c0 -> callMethod m srv c0 id cm = Ok (srv', c') ->
    cond_step (abs_state c0) (LMethod m) (abs_state c')).
  { intros m srv [cond ack conf cmt allowed] id cm srv' c' Hwf' H. unfold ack_wf in Hwf'; simpl in Hwf'.
    destruct m; simpl in H; unfold Acknowledge, Confirm in H; simpl in H;
      destruct (eventId_matches _ id), ack, conf, allowed; simpl in H; try discriminate;
      try (specialize (Hwf' eq_refl); discriminate);
      rewrite (triggerT_abs_state _ _ _ _ H); unfold abs_state, phase; simpl;
      apply cond_step_method; by constructor. }
  destruct op; simpl; unfold create, update_event, commit, fresh_node;
    repeat (case_match || case_decide); simplify_eq/=; try (exists c; by split).
  all: match goal with
       | |- context [<[?m := _]> _ !! ?k] =>
           first [ rewrite lookup_insert_eq
                 | destruct (decide (m = k)) as [->|?];
                     [rewrite lookup_insert_eq | rewrite lookup_insert_ne by done; by exists c] ]
       | |- context [delete ?m _ !! ?k] => rewrite lookup_delete_ne by congruence; by exists c
       end.
  all: repeat match goal with H : w_objects _ !! _ = Some _ |- _ => rewrite Hn in H; simplify_eq end.
  all: try (exfalso; match goal with H : bool_decide _ = true |- _ =>
                       apply bool_decide_eq_true in H as [_ []]; exact Hnode end).
  all: eexists; (split; [reflexivity|]); try reflexivity.
  all: first
    [ by apply cond_step_guard
    | match goal with
      | H : triggerT _ _ = Ok _ |- _ => exact (triggerT_abs_state _ _ _ _ H)
      | H : Acknowledge _ _ _ _ = Ok _ |- _ => exact (Hcall MAcknowledge _ _ _ _ _ _ Hack H)
      | H : Confirm _ _ _ _ = Ok _ |- _ => exact (Hcall MConfirm _ _ _ _ _ _ Hack H)
      end ].
Qed.

(** ** Witness *)

Lemma condition_refines_guarded_machine_witness :
  exists c', w_objects (exec (run (World_init 1000) (firstn 9 scenario_ops)).1
                (OpAcknowledge tankAlarm (m_outEventId (base_event ex_alarm)) "ack")).1 !! tankAlarm
             = Some (OAckCondition c') /\
    cond_step (abs_state ex_alarm) (LMethod MAcknowledge) (abs_state c').
Proof.
  destruct (condition_refines_guarded_machine 1000 (firstn 9 scenario_ops) tankAlarm ex_alarm
              (OpAcknowledge tankAlarm (m_outEventId (base_event ex_alarm)) "ack"))
    as (c' & Hl & Hs); [vm_compute; reflexivity|discriminate|].
  exists c'. split; [exact Hl|]. revert Hs.
  assert (Hst : (exec (run (World_init 1000) (firstn 9 scenario_ops)).1
                   (OpAcknowledge tankAlarm (m_outEventId (base_event ex_alarm)) "ack")).2 = None)
    by (vm_compute; reflexivity).
  rewrite Hst. unfold label_project. rewrite decide_True by reflexivity. exact id.
Defined.

End Refinement.
